(** * Ships of deepRL-pygame: collision response, keyboard control, weapons

    A shallow embedding of [src/game/ship.py] ([BaseShip], [HumanShip]).

    - Python floats are IEEE binary64: Rocq's primitive [float].
    - Python ints (ticks, event numbers, key codes, the constants of
      [game.conf]) are [Z].
    - Sprites are mutable objects shared between groups: they live in a
      store [gmap nat Sprite], a group is the list of the store indices of
      its members, and [self] is an index.
    - The host library's timer table is a [gmap Z Z] from event number to
      period. *)

From Stdlib Require Import ZArith Lia Bool List Sorted.
From Stdlib Require Import Floats.
From stdpp Require Import gmap list.

#[local] Set Warnings "-inexact-float".
Open Scope Z_scope.

(** ** Python's float arithmetic beyond the IEEE primitives *)

Module PyFloat.

(** C [fmod]: the exact remainder of [x / y] truncated towards zero; it
    has the sign of [x].  Computed on the integer mantissas, so no
    rounding takes place. *)
Definition fmod (x y : float) : float :=
  match Prim2SF x, Prim2SF y with
  | S754_nan, _ | _, S754_nan => nan
  | S754_infinity _, _ => nan
  | _, S754_zero _ => nan
  | S754_zero _, _ => x
  | _, S754_infinity _ => x
  | S754_finite sx mx ex, S754_finite _ my ey =>
      let e := Z.min ex ey in
      let X := Z.pos mx * 2 ^ (ex - e) in
      let Y := Z.pos my * 2 ^ (ey - e) in
      match Z.rem X Y with
      | Z.pos r => SF2Prim (S754_finite sx r e)
      | _ => if sx then neg_zero else zero
      end
  end.

(** [vx % wx] on Python floats (CPython's [float_rem]): [fmod], then the
    result is moved to the sign of the divisor. *)
Definition float_rem (vx wx : float) : float :=
  let m := fmod vx wx in
  if (m =? 0)%float then (if get_sign wx then neg_zero else zero)
  else if xorb (wx <? 0)%float (m <? 0)%float then (m + wx)%float
  else m.

(** [math.pi] *)
Definition pi : float := 0x1.921fb54442d18p+1%float.

End PyFloat.

(** [math.cos] and [math.sin] come from the platform's C library. *)
Class Libm := {
  cos : float -> float;
  sin : float -> float
}.

(** ** The part of pygame the ships use *)

Module Pygame.

(** Event numbers and key codes (pygame 2; [USEREVENT] as in pygame 2.6). *)
Definition KEYDOWN : Z := 768.
Definition KEYUP : Z := 769.
Definition USEREVENT : Z := 32866.
Definition K_a : Z := 97.
Definition K_d : Z := 100.
Definition K_e : Z := 101.
Definition K_q : Z := 113.
Definition K_s : Z := 115.

(** An event: its [type], and [key] for keyboard events (other events
    carry no key). *)
Record Event := mkEvent { type : Z; key : option Z }.

Definition key_is (ev : Event) (k : Z) : bool :=
  match key ev with
  | Some k' => k' =? k
  | None => false
  end.

(** [pygame.Rect] and [Rect.colliderect]. *)
Record Rect := mkRect { rect_x : Z; rect_y : Z; rect_w : Z; rect_h : Z }.

Definition colliderect (a b : Rect) : bool :=
  if (rect_w a =? 0) || (rect_h a =? 0) || (rect_w b =? 0) || (rect_h b =? 0)
  then false
  else
    (Z.min (rect_x a) (rect_x a + rect_w a) <? Z.max (rect_x b) (rect_x b + rect_w b))
    && (Z.min (rect_y a) (rect_y a + rect_h a) <? Z.max (rect_y b) (rect_y b + rect_h b))
    && (Z.max (rect_x a) (rect_x a + rect_w a) >? Z.min (rect_x b) (rect_x b + rect_w b))
    && (Z.max (rect_y a) (rect_y a + rect_h a) >? Z.min (rect_y b) (rect_y b + rect_h b)).

(** [pygame.time.set_timer(event, millis)]: the timer of [event] is
    replaced by one of period [millis]; [millis = 0] only removes it. *)
Definition set_timer (event millis : Z) (timers : gmap Z Z) : gmap Z Z :=
  if millis <=? 0 then delete event timers else <[event := millis]> timers.

(** The period of the timer of [event], 0 when there is none. *)
Definition period (timers : gmap Z Z) (event : Z) : Z :=
  default 0 (timers !! event).

(** The host posts a repeat event only while a timer for it is set:
    an event numbered from [USEREVENT] on is delivered only when its
    period is not 0.  The game posts no event of its own. *)
Definition delivers (timers : gmap Z Z) (ev : Event) : bool :=
  (type ev <? USEREVENT) || negb (period timers (type ev) =? 0).

End Pygame.
Import Pygame.

(** ** game.conf *)

(** The constants [ship.py] imports from [game.conf]. *)
Class Conf := {
  MAX_TORPEDOES_PER_SHIP : Z;
  MOVEMENT_TIME_DELAY_MS : Z;
  PHASER_FIRE_CD : Z;
  TORPEDO_FIRE_CD : Z
}.

Inductive SpaceEntityType := SHIP | TORPEDO | PHASER.

Definition is_SHIP (t : SpaceEntityType) : bool :=
  match t with SHIP => true | _ => false end.

(** ** Data *)

Definition Vec : Type := float * float.

(** [game.base.SpaceEntity]: the attributes [ship.py] reads and writes.
    [alive] is what [Sprite.alive()] answers. *)
Record SpaceEntity := mkSpaceEntity {
  entity_type : SpaceEntityType;
  pos : Vec;
  vel : Vec;
  ang : float;
  rect : Rect;
  alive : bool
}.

(** A torpedo, as [PhotonTorpedo(start_pos, start_ang, start_vel)] makes it. *)
Record PhotonTorpedo := mkPhotonTorpedo {
  torpedo_pos : Vec;
  torpedo_ang : float;
  torpedo_vel : Vec
}.

(** A phaser beam, as [Phaser(source_ship, start_pos, start_vel, start_ang)]
    makes it; the source ship is named by its player id. *)
Record Phaser := mkPhaser {
  phaser_source : Z;
  phaser_pos : Vec;
  phaser_vel : Vec;
  phaser_ang : float
}.

(** [BaseShip].  [torpedo_group] is a [Group], [phaser_group] a
    [GroupSingle]; both are listed in insertion order. *)
Record BaseShip := mkBaseShip {
  entity : SpaceEntity;
  player_id : Z;
  torpedo_group : list PhotonTorpedo;
  phaser_group : list Phaser;
  phaser : option Phaser;
  phaser_last_fired : option Z;
  torpedo_last_fired : option Z;
  last_collided_ship : option Z
}.

(** [HumanShip]. *)
Record HumanShip := mkHumanShip {
  base : BaseShip;
  rotate_ccw_lock : bool
}.

(** What a store cell can hold. *)
Inductive Sprite :=
  | Other (e : SpaceEntity)
  | Ship (b : BaseShip)
  | Human (h : HumanShip).

(** *** Attribute assignment *)

Definition set_pos (p : Vec) (e : SpaceEntity) : SpaceEntity :=
  mkSpaceEntity (entity_type e) p (vel e) (ang e) (rect e) (alive e).
Definition set_vel (v : Vec) (e : SpaceEntity) : SpaceEntity :=
  mkSpaceEntity (entity_type e) (pos e) v (ang e) (rect e) (alive e).
Definition set_ang (a : float) (e : SpaceEntity) : SpaceEntity :=
  mkSpaceEntity (entity_type e) (pos e) (vel e) a (rect e) (alive e).
Definition set_alive (a : bool) (e : SpaceEntity) : SpaceEntity :=
  mkSpaceEntity (entity_type e) (pos e) (vel e) (ang e) (rect e) a.

Definition with_entity (f : SpaceEntity -> SpaceEntity) (b : BaseShip) : BaseShip :=
  mkBaseShip (f (entity b)) (player_id b) (torpedo_group b) (phaser_group b)
    (phaser b) (phaser_last_fired b) (torpedo_last_fired b) (last_collided_ship b).
Definition set_torpedo_group (g : list PhotonTorpedo) (b : BaseShip) : BaseShip :=
  mkBaseShip (entity b) (player_id b) g (phaser_group b)
    (phaser b) (phaser_last_fired b) (torpedo_last_fired b) (last_collided_ship b).
Definition set_phaser_group (g : list Phaser) (b : BaseShip) : BaseShip :=
  mkBaseShip (entity b) (player_id b) (torpedo_group b) g
    (phaser b) (phaser_last_fired b) (torpedo_last_fired b) (last_collided_ship b).
Definition set_phaser (p : option Phaser) (b : BaseShip) : BaseShip :=
  mkBaseShip (entity b) (player_id b) (torpedo_group b) (phaser_group b)
    p (phaser_last_fired b) (torpedo_last_fired b) (last_collided_ship b).
Definition set_phaser_last_fired (t : option Z) (b : BaseShip) : BaseShip :=
  mkBaseShip (entity b) (player_id b) (torpedo_group b) (phaser_group b)
    (phaser b) t (torpedo_last_fired b) (last_collided_ship b).
Definition set_torpedo_last_fired (t : option Z) (b : BaseShip) : BaseShip :=
  mkBaseShip (entity b) (player_id b) (torpedo_group b) (phaser_group b)
    (phaser b) (phaser_last_fired b) t (last_collided_ship b).
Definition set_last_collided_ship (t : option Z) (b : BaseShip) : BaseShip :=
  mkBaseShip (entity b) (player_id b) (torpedo_group b) (phaser_group b)
    (phaser b) (phaser_last_fired b) (torpedo_last_fired b) t.

Definition with_base (f : BaseShip -> BaseShip) (h : HumanShip) : HumanShip :=
  mkHumanShip (f (base h)) (rotate_ccw_lock h).
Definition set_rotate_ccw_lock (l : bool) (h : HumanShip) : HumanShip :=
  mkHumanShip (base h) l.

(** Attributes every sprite has, and those every ship has. *)
Definition sprite_entity (s : Sprite) : SpaceEntity :=
  match s with
  | Other e => e
  | Ship b => entity b
  | Human h => entity (base h)
  end.

Definition sprite_vel (s : Sprite) : Vec := vel (sprite_entity s).
Definition sprite_pos (s : Sprite) : Vec := pos (sprite_entity s).

Definition sprite_with_entity (f : SpaceEntity -> SpaceEntity) (s : Sprite) : Sprite :=
  match s with
  | Other e => Other (f e)
  | Ship b => Ship (with_entity f b)
  | Human h => Human (with_base (with_entity f) h)
  end.

Definition sprite_ship (s : Sprite) : option BaseShip :=
  match s with
  | Other _ => None
  | Ship b => Some b
  | Human h => Some (base h)
  end.

Definition sprite_with_ship (f : BaseShip -> BaseShip) (s : Sprite) : Sprite :=
  match s with
  | Other e => Other e
  | Ship b => Ship (f b)
  | Human h => Human (with_base f h)
  end.

(** *** Groups *)

(** [Group.add] of a newly made sprite. *)
Definition group_add {A} (x : A) (g : list A) : list A := g ++ [x].

(** [GroupSingle.add]: the group holds the last sprite added, alone. *)
Definition group_single_add {A} (x : A) (g : list A) : list A := [x].

(** *** Constructors *)

(** [BaseShip.__init__], after [SpaceEntity.__init__] has made [e]. *)
Definition BaseShip_init (pid : Z) (e : SpaceEntity) : BaseShip :=
  mkBaseShip e pid [] [] None None None None.

(** [HumanShip.__init__]. *)
Definition HumanShip_init (pid : Z) (e : SpaceEntity) : HumanShip :=
  mkHumanShip (BaseShip_init pid e) false.

(** The five repeat events of a human ship; [__init__] numbers them from
    the player id and nothing reassigns them. *)
Definition rotate_cc_repeat_event (h : HumanShip) : Z :=
  USEREVENT + player_id (base h) + 1.
Definition rotate_cw_repeat_event (h : HumanShip) : Z :=
  USEREVENT + player_id (base h) + 2.
Definition acc_repeat_event (h : HumanShip) : Z :=
  USEREVENT + player_id (base h) + 3.
Definition fire_torpedoes_repeat_event (h : HumanShip) : Z :=
  USEREVENT + player_id (base h) + 4.
Definition fire_phaser_repeat_event (h : HumanShip) : Z :=
  USEREVENT + player_id (base h) + 5.

(** ** Code of the repository that [ship.py] calls

    [SpaceEntity.update] (game.base), the [update] methods of the two
    projectiles (game.projectile) and [check_overlapping_sprites]
    (game.util) are not part of [ship.py]; they are parameters.  The
    update of a projectile sees the target sprites and either keeps the
    projectile, moved as it likes, or removes it from its groups ([None]);
    it adds no projectile to the groups of the ship. *)
Class Collaborators := {
  SpaceEntity_update : SpaceEntity -> SpaceEntity;
  PhotonTorpedo_update : list Sprite -> PhotonTorpedo -> option PhotonTorpedo;
  Phaser_update : list Sprite -> Phaser -> option Phaser;
  check_overlapping_sprites : Sprite -> Sprite -> bool * bool
}.

Section Game.

Context {conf : Conf} {libm : Libm} {collab : Collaborators}.

(** ** BaseShip *)

(** [update_groups]: every projectile of both groups is updated, against
    the sprites of [target_group]. *)
Definition update_groups (targets : list Sprite) (self : BaseShip) : BaseShip :=
  let self :=
    set_torpedo_group (omap (PhotonTorpedo_update targets) (torpedo_group self)) self in
  set_phaser_group (omap (Phaser_update targets) (phaser_group self)) self.

(** [now] is what [pygame.time.get_ticks()] returns. *)
Definition check_phaser_on_cooldown (now : Z) (self : BaseShip) : bool :=
  match phaser_last_fired self with
  | None => false
  | Some last =>
      if last =? 0 then false
      else
        let flight_time := now - last in
        if flight_time >? PHASER_FIRE_CD then false else true
  end.

Definition check_torpedo_on_cooldown (now : Z) (self : BaseShip) : bool :=
  match torpedo_last_fired self with
  | None => false
  | Some last =>
      if last =? 0 then false
      else
        let flight_time := now - last in
        if flight_time >? TORPEDO_FIRE_CD then false else true
  end.

(** One turn of the loop of [BaseShip.update], for the sprite at index
    [j] of the store.  [self] and the sprite are read from the store and
    written back, so that every group holding them sees the change. *)
Definition collide (now : Z) (self : nat) (store : gmap nat Sprite) (j : nat)
  : gmap nat Sprite :=
  match store !! self, store !! j with
  | Some me, Some sprite =>
      if negb (Nat.eqb j self)
         && colliderect (rect (sprite_entity me)) (rect (sprite_entity sprite))
         && is_SHIP (entity_type (sprite_entity sprite))
      then
        let '(self_vel_x, self_vel_y) := vel (sprite_entity me) in
        let '(other_vel_x, other_vel_y) := vel (sprite_entity sprite) in
        let new_self_vel_x := ((self_vel_x * 0.2) + (other_vel_x * 0.75))%float in
        let new_self_vel_y := ((self_vel_y * 0.2) + (other_vel_y * 0.75))%float in
        let new_other_vel_x := ((other_vel_x * 0.2) + (self_vel_x * 0.75))%float in
        let new_other_vel_y := ((other_vel_y * 0.2) + (self_vel_y * 0.75))%float in
        let me := sprite_with_entity (set_vel (new_self_vel_x, new_self_vel_y)) me in
        let sprite :=
          sprite_with_entity (set_vel (new_other_vel_x, new_other_vel_y)) sprite in
        let me := sprite_with_ship (set_last_collided_ship (Some now)) me in
        let '(overlap_x, overlap_y) := check_overlapping_sprites me sprite in
        let sprite :=
          if overlap_x then
            sprite_with_entity
              (fun e => set_pos ((fst (pos e) + fst (vel e))%float, snd (pos e)) e)
              sprite
          else sprite in
        let sprite :=
          if overlap_y then
            sprite_with_entity
              (fun e => set_pos (fst (pos e), (snd (pos e) + snd (vel e))%float) e)
              sprite
          else sprite in
        <[j := sprite]> (<[self := me]> store)
      else store
  | _, _ => store
  end.

(** [BaseShip.update]: the entity's own update, then the loop over
    [target_group.sprites()]. *)
Definition update (now : Z) (self : nat) (target_group : list nat)
    (store : gmap nat Sprite) : gmap nat Sprite :=
  let store := alter (sprite_with_entity SpaceEntity_update) self store in
  foldl (collide now self) store target_group.

(** ** HumanShip *)

Definition ship_ang (self : HumanShip) : float := ang (entity (base self)).
Definition ship_vel (self : HumanShip) : Vec := vel (entity (base self)).
Definition ship_pos (self : HumanShip) : Vec := pos (entity (base self)).
Definition assign_ang (a : float) (self : HumanShip) : HumanShip :=
  with_base (with_entity (set_ang a)) self.
Definition assign_vel (v : Vec) (self : HumanShip) : HumanShip :=
  with_base (with_entity (set_vel v)) self.

(** The handlers are sequences of statements, each a change of the ship
    and of the host's timer table. *)
Definition Stmt : Type := HumanShip * gmap Z Z -> HumanShip * gmap Z Z.

(** [first; second] *)
Definition seq (first second : Stmt) : Stmt := fun st => second (first st).
(** [if c: body] *)
Definition when (c : bool) (body : Stmt) : Stmt :=
  fun st => if c then body st else st.
(** [if c(self): body] *)
Definition when_self (c : HumanShip -> bool) (body : Stmt) : Stmt :=
  fun st => when (c (fst st)) body st.
(** an assignment to attributes of [self] *)
Definition assign (f : HumanShip -> HumanShip) : Stmt :=
  fun st => (f (fst st), snd st).
(** [pygame.time.set_timer(self.event, millis)] *)
Definition time_set_timer (event : HumanShip -> Z) (millis : Z) : Stmt :=
  fun st => (fst st, set_timer (event (fst st)) millis (snd st)).

(** [keeps I G s]: statement [s] keeps the invariant [I] when it is run
    in a state where the guards [G] passed on the way to it hold. *)
Definition keeps (I G : HumanShip * gmap Z Z -> Prop) (s : Stmt) : Prop :=
  forall st, I st -> G st -> I (s st).

Declare Scope stmt_scope.
Delimit Scope stmt_scope with stmt.
Bind Scope stmt_scope with Stmt.
Notation "s1 ;; s2" := (seq s1 s2)
  (at level 100, s2 at level 200, right associativity) : stmt_scope.

(** The four lines that add one unit of thrust along the heading; they
    occur twice in [_handle_movement_events]. *)
Definition thrust (self : HumanShip) : HumanShip :=
  let '(x_vel, y_vel) := ship_vel self in
  let x_vel := (x_vel + cos (ship_ang self * PyFloat.pi / 180))%float in
  let y_vel := (y_vel + sin (ship_ang self * PyFloat.pi / 180))%float in
  assign_vel (x_vel, y_vel) self.

Definition _handle_movement_events (ev : Event) : Stmt :=
  (when (type ev =? KEYDOWN)
     (when (key_is ev K_a)
        (assign (set_rotate_ccw_lock true) ;;
         assign (fun self => assign_ang (ship_ang self - 22.5)%float self) ;;
         time_set_timer rotate_cc_repeat_event MOVEMENT_TIME_DELAY_MS) ;;
      when (key_is ev K_d)
        (assign (set_rotate_ccw_lock false) ;;
         assign (fun self => assign_ang (ship_ang self + 22.5)%float self) ;;
         time_set_timer rotate_cw_repeat_event MOVEMENT_TIME_DELAY_MS) ;;
      when (key_is ev K_s)
        (assign thrust ;;
         time_set_timer acc_repeat_event MOVEMENT_TIME_DELAY_MS)) ;;
   when (type ev =? KEYUP)
     (when (key_is ev K_a)
        (assign (set_rotate_ccw_lock false) ;;
         time_set_timer rotate_cc_repeat_event 0) ;;
      when (key_is ev K_d)
        (assign (set_rotate_ccw_lock true) ;;
         time_set_timer rotate_cw_repeat_event 0) ;;
      when (key_is ev K_s)
        (time_set_timer acc_repeat_event 0)) ;;
   when_self (fun self => type ev =? rotate_cc_repeat_event self)
     (when_self rotate_ccw_lock
        (assign (fun self => assign_ang (ship_ang self - 22.5)%float self)) ;;
      assign (fun self => assign_ang (PyFloat.float_rem (ship_ang self) 360) self)) ;;
   when_self (fun self => type ev =? rotate_cw_repeat_event self)
     (when_self (fun self => negb (rotate_ccw_lock self))
        (assign (fun self => assign_ang (ship_ang self + 22.5)%float self)) ;;
      assign (fun self => assign_ang (PyFloat.float_rem (ship_ang self) 360) self)) ;;
   when_self (fun self => type ev =? acc_repeat_event self)
     (assign thrust))%stmt.

(** A phaser is made at the ship, put in the single-sprite group, and
    the tick is recorded: the three assignments of lines 202-209 and of
    lines 235-242 (there in another order; they do not depend on each
    other). *)
Definition fire_phaser (now : Z) (self : HumanShip) : HumanShip :=
  let beam :=
    mkPhaser (player_id (base self)) (ship_pos self) (ship_vel self) (ship_ang self) in
  let self := with_base (set_phaser (Some beam)) self in
  let self :=
    with_base (fun b => set_phaser_group (group_single_add beam (phaser_group b)) b) self in
  with_base (set_phaser_last_fired (Some now)) self.

(** A torpedo is made at the ship and added to the group, and the tick
    is recorded (lines 219-226 and, in the other order, 245-252). *)
Definition fire_torpedo (now : Z) (self : HumanShip) : HumanShip :=
  let torpedo := mkPhotonTorpedo (ship_pos self) (ship_ang self) (ship_vel self) in
  let self :=
    with_base (fun b => set_torpedo_group (group_add torpedo (torpedo_group b)) b) self in
  with_base (set_torpedo_last_fired (Some now)) self.

(** [len(self.torpedo_group)] *)
Definition torpedo_count (self : BaseShip) : Z :=
  Z.of_nat (length (torpedo_group self)).

Definition _handle_firing_weapon_events (now : Z) (ev : Event) : Stmt :=
  (when (type ev =? KEYDOWN)
     (when (key_is ev K_q)
        (time_set_timer fire_phaser_repeat_event PHASER_FIRE_CD ;;
         when_self (fun self => negb (check_phaser_on_cooldown now (base self)))
           (assign (fire_phaser now))) ;;
      when (key_is ev K_e)
        (time_set_timer fire_torpedoes_repeat_event TORPEDO_FIRE_CD ;;
         when_self
           (fun self =>
              (torpedo_count (base self) <? MAX_TORPEDOES_PER_SHIP)
              && negb (check_torpedo_on_cooldown now (base self)))
           (assign (fire_torpedo now)))) ;;
   when (type ev =? KEYUP)
     (when (key_is ev K_q)
        (time_set_timer fire_phaser_repeat_event 0) ;;
      when (key_is ev K_e)
        (time_set_timer fire_torpedoes_repeat_event 0)) ;;
   when_self (fun self => type ev =? fire_phaser_repeat_event self)
     (assign (fire_phaser now)) ;;
   when_self (fun self => type ev =? fire_torpedoes_repeat_event self)
     (when_self (fun self => torpedo_count (base self) <? MAX_TORPEDOES_PER_SHIP)
        (assign (fire_torpedo now))))%stmt.

Definition handle_events (now : Z) (ev : Event) : Stmt :=
  fun st =>
    if negb (alive (entity (base (fst st)))) then st
    else (_handle_movement_events ev ;; _handle_firing_weapon_events now ev)%stmt st.

End Game.

(** ** The game as a transition system

    The world is the sprite store and the host's timer table.  The main
    loop calls the methods of the ships; each call reads the tick counter
    once. *)

Record World := mkWorld {
  store : gmap nat Sprite;
  timers : gmap Z Z
}.

Inductive Action :=
  | HandleEvent (i : nat) (ev : Event)          (* store[i].handle_events(ev) *)
  | Update (i : nat) (target_group : list nat)  (* store[i].update(target_group=...) *)
  | UpdateGroups (i : nat) (target_group : list nat)
                                                (* store[i].update_groups(target_group) *)
  | Kill (i : nat).                             (* store[i].kill(), by a collaborator *)

Inductive Weapon := PhaserWeapon | TorpedoWeapon.


Inductive MovementKey := RotateLeft | RotateRight | Thrust.

Definition movement_key (m : MovementKey) : Z :=
  match m with
  | RotateLeft => K_a
  | RotateRight => K_d
  | Thrust => K_s
  end.

Definition movement_repeat_event (m : MovementKey) (h : HumanShip) : Z :=
  match m with
  | RotateLeft => rotate_cc_repeat_event h
  | RotateRight => rotate_cw_repeat_event h
  | Thrust => acc_repeat_event h
  end.

Definition is_key (ev : Event) (ty k : Z) : bool :=
  (type ev =? ty) && key_is ev k.

(** What is left of a sprite when its entity attributes and
    [last_collided_ship] are forgotten. *)
Inductive Kind := KOther | KShip | KHuman (lock : bool).

Definition sprite_kind (s : Sprite) : Kind :=
  match s with
  | Other _ => KOther
  | Ship _ => KShip
  | Human h => KHuman (rotate_ccw_lock h)
  end.

Definition arms (b : BaseShip)
  : Z * list PhotonTorpedo * list Phaser * option Phaser * option Z * option Z :=
  (player_id b, torpedo_group b, phaser_group b, phaser b,
   phaser_last_fired b, torpedo_last_fired b).

Definition sprite_arms (s : Sprite) :=
  (sprite_kind s, arms <$> sprite_ship s).

Section Run.

Context {conf : Conf} {libm : Libm} {collab : Collaborators}.

Definition step (w : World) (a : Z * Action) : World :=
  let '(now, act) := a in
  match act with
  | HandleEvent i ev =>
      match store w !! i with
      | Some (Human self) =>
          let '(self, timers) := handle_events now ev (self, timers w) in
          mkWorld (<[i := Human self]> (store w)) timers
      | _ => w
      end
  | Update i target_group =>
      match store w !! i ≫= sprite_ship with
      | Some _ => mkWorld (update now i target_group (store w)) (timers w)
      | None => w
      end
  | UpdateGroups i target_group =>
      let targets := omap (fun j => store w !! j) target_group in
      mkWorld (alter (sprite_with_ship (update_groups targets)) i (store w)) (timers w)
  | Kill i =>
      mkWorld (alter (sprite_with_entity (set_alive false)) i (store w)) (timers w)
  end.

Definition run (w : World) (tr : list (Z * Action)) : World := foldl step w tr.

(** *** When a weapon fires *)

Definition cooldown (wp : Weapon) : Z :=
  match wp with
  | PhaserWeapon => PHASER_FIRE_CD
  | TorpedoWeapon => TORPEDO_FIRE_CD
  end.

Definition last_fired (wp : Weapon) (b : BaseShip) : option Z :=
  match wp with
  | PhaserWeapon => phaser_last_fired b
  | TorpedoWeapon => torpedo_last_fired b
  end.

(** What a fire of weapon [wp] changes in the ship. *)
Definition weapon_state (wp : Weapon) (b : BaseShip)
  : option Z * (list Phaser * option Phaser + list PhotonTorpedo) :=
  match wp with
  | PhaserWeapon => (phaser_last_fired b, inl (phaser_group b, phaser b))
  | TorpedoWeapon => (torpedo_last_fired b, inr (torpedo_group b))
  end.

Definition weapon_repeat_event (wp : Weapon) (h : HumanShip) : Z :=
  match wp with
  | PhaserWeapon => fire_phaser_repeat_event h
  | TorpedoWeapon => fire_torpedoes_repeat_event h
  end.

(** The guard of the key-down path of a weapon. *)
Definition keydown_fires (wp : Weapon) (now : Z) (ev : Event) (h : HumanShip) : bool :=
  match wp with
  | PhaserWeapon =>
      is_key ev KEYDOWN K_q && negb (check_phaser_on_cooldown now (base h))
  | TorpedoWeapon =>
      is_key ev KEYDOWN K_e
      && (torpedo_count (base h) <? MAX_TORPEDOES_PER_SHIP)
      && negb (check_torpedo_on_cooldown now (base h))
  end.

(** The guard of the repeat-timer path of a weapon. *)
Definition repeat_fires (wp : Weapon) (ev : Event) (h : HumanShip) : bool :=
  match wp with
  | PhaserWeapon => type ev =? fire_phaser_repeat_event h
  | TorpedoWeapon =>
      (type ev =? fire_torpedoes_repeat_event h)
      && (torpedo_count (base h) <? MAX_TORPEDOES_PER_SHIP)
  end.

(** [handle_events now ev] fires weapon [wp] of ship [h]: the ship is
    alive and one of the two guards lets the event through
    ([fires_sets_last_fired] and [no_fire_keeps_weapon] below tie this to
    what [handle_events] does to the ship). *)
Definition fires_on (wp : Weapon) (now : Z) (ev : Event) (h : HumanShip) : bool :=
  alive (entity (base h)) && (keydown_fires wp now ev h || repeat_fires wp ev h).



(** Every event of the run is one the host delivers when it is handled. *)
Fixpoint deliverable (w : World) (tr : list (Z * Action)) : Prop :=
  match tr with
  | [] => True
  | a :: tr =>
      match snd a with
      | HandleEvent _ ev => delivers (timers w) ev = true
      | _ => True
      end
      /\ deliverable (step w a) tr
  end.





(** Every ship of the store satisfies [P]. *)
Definition every_ship (P : BaseShip -> Prop) (w : World) : Prop :=
  forall i s b, store w !! i = Some s -> sprite_ship s = Some b -> P b.

(** The sprite at [i], when it is a human ship. *)
Definition human_at (w : World) (i : nat) : option HumanShip :=
  match store w !! i with
  | Some (Human h) => Some h
  | _ => None
  end.

End Run.

(** ** A concrete game, for evaluating the definitions *)

Module Demo.

(** The two delays of the configuration under [src/game/conf.py] (100 ms
    for movement, 150 ms for weapons) and a cap of three torpedoes. *)
Definition conf : Conf :=
  {| MAX_TORPEDOES_PER_SHIP := 3;
     MOVEMENT_TIME_DELAY_MS := 100;
     PHASER_FIRE_CD := 150;
     TORPEDO_FIRE_CD := 150 |}.

(** Sine and cosine by their Taylor polynomials of degree 7 and 6. *)
Definition libm : Libm :=
  {| cos := fun x =>
       let x2 := (x * x)%float in
       (1 - x2 / 2 + x2 * x2 / 24 - x2 * x2 * x2 / 720)%float;
     sin := fun x =>
       let x2 := (x * x)%float in
       (x - x * x2 / 6 + x * x2 * x2 / 120 - x * x2 * x2 * x2 / 5040)%float |}.

(** Entities move by their velocity; projectiles never expire; sprites
    overlap on both axes when their rectangles collide. *)
Definition collab : Collaborators :=
  {| SpaceEntity_update := fun e =>
       set_pos ((fst (pos e) + fst (vel e))%float, (snd (pos e) + snd (vel e))%float) e;
     PhotonTorpedo_update := fun _ t => Some t;
     Phaser_update := fun _ p => Some p;
     check_overlapping_sprites := fun a b =>
       let c := colliderect (rect (sprite_entity a)) (rect (sprite_entity b)) in
       (c, c) |}.

Definition hull (x y : Z) (v : Vec) (a : float) : SpaceEntity :=
  mkSpaceEntity SHIP (PrimFloat.of_uint63 (Uint63.of_Z x), PrimFloat.of_uint63 (Uint63.of_Z y))
    v a (mkRect x y 32 32) true.

(** A human ship (player 0) at rest at (100, 100) heading 0, and a
    second ship overlapping it, drifting left. *)
Definition player : HumanShip := HumanShip_init 0 (hull 100 100 (0, 0)%float 0%float).
Definition drifter : BaseShip := BaseShip_init 1 (hull 120 110 (-2, 1)%float 180%float).

Definition world : World :=
  mkWorld (<[1%nat := Ship drifter]> {[ 0%nat := Human player ]}) ∅.

Definition key_down (k : Z) : Event := mkEvent KEYDOWN (Some k).
Definition key_up (k : Z) : Event := mkEvent KEYUP (Some k).
Definition timer_event (n : Z) : Event := mkEvent n None.

(** The player's ship once it is dead. *)
Definition wreck : HumanShip := with_base (with_entity (set_alive false)) player.

(** The player's ship with three torpedoes in flight, the last one fired
    at tick 1300. *)
Definition torpedo : PhotonTorpedo :=
  mkPhotonTorpedo (ship_pos player) (ship_ang player) (ship_vel player).
Definition loaded : HumanShip :=
  with_base (set_torpedo_last_fired (Some 1300))
    (with_base (set_torpedo_group [torpedo; torpedo; torpedo]) player).

(** The torpedo key held from tick 1000 on: a fire on the key-down and
    one on each of the next two repeat events. *)
Definition salvo : list (Z * Action) :=
  [ (1000, HandleEvent 0 (key_down K_e));
    (1150, HandleEvent 0 (timer_event (USEREVENT + 4)));
    (1300, HandleEvent 0 (timer_event (USEREVENT + 4))) ].

(** The phaser key held from tick 100 on; the two repeat events, posted
    at ticks 250 and 400, are handled in the frames of ticks 266 and
    402. *)
Definition held_phaser : list (Z * Action) :=
  [ (100, HandleEvent 0 (key_down K_q));
    (266, HandleEvent 0 (timer_event (USEREVENT + 5)));
    (402, HandleEvent 0 (timer_event (USEREVENT + 5))) ].




(** Rotate-left pressed at tick 10. *)
Definition turning : World :=
  mkWorld
    (<[0%nat := Human (assign_ang (-22.5)%float (set_rotate_ccw_lock true player))]>
       (store world))
    {[ USEREVENT + 1 := 100 ]}.

End Demo.

(** ** More names for the statements about the handlers *)

(** The five event numbers [HumanShip.__init__] gives a ship, in the order
    of the assignments. *)
Definition repeat_events (h : HumanShip) : list Z :=
  [ rotate_cc_repeat_event h; rotate_cw_repeat_event h; acc_repeat_event h;
    fire_torpedoes_repeat_event h; fire_phaser_repeat_event h ].

(** The keys [HumanShip] reacts to. *)
Definition ship_keys : list Z := [K_a; K_d; K_s; K_q; K_e].

(** In the run the ship at [i] handles no key-down of movement key [m]. *)
Definition key_stays_up (m : MovementKey) (i : nat) (tr : list (Z * Action)) : Prop :=
  Forall
    (fun a =>
       match snd a with
       | HandleEvent j ev => j = i -> is_key ev KEYDOWN (movement_key m) = false
       | _ => True
       end) tr.

(** No human ship of the world but the one at [i] has [n] among its five
    event numbers. *)
Definition number_unshared (n : Z) (i : nat) (w : World) : Prop :=
  forall j h, j <> i -> human_at w j = Some h -> ~ In n (repeat_events h).

Definition weapon_key (wp : Weapon) : Z :=
  match wp with
  | PhaserWeapon => K_q
  | TorpedoWeapon => K_e
  end.

(** The five controls of a human ship, each with a key and a repeat
    event. *)
Inductive Control := Move (m : MovementKey) | Fire (wp : Weapon).

Definition control_key (c : Control) : Z :=
  match c with
  | Move m => movement_key m
  | Fire wp => weapon_key wp
  end.

Definition control_event (c : Control) (h : HumanShip) : Z :=
  match c with
  | Move m => movement_repeat_event m h
  | Fire PhaserWeapon => fire_phaser_repeat_event h
  | Fire TorpedoWeapon => fire_torpedoes_repeat_event h
  end.

(** What [BaseShip.update] never assigns in the entity of a sprite. *)
Definition sprite_hull (s : Sprite) : SpaceEntityType * float * Rect * bool :=
  let e := sprite_entity s in
  (entity_type e, ang e, rect e, alive e).

(** [last_collided_ship] of a sprite that is a ship ([None] for a ship
    that never collided, as for a sprite that is no ship). *)
Definition sprite_last_collided (s : Sprite) : option Z :=
  sprite_ship s ≫= last_collided_ship.

Section MoreRun.

Context {conf : Conf}.

(** [check_phaser_on_cooldown] or [check_torpedo_on_cooldown]. *)
Definition check_on_cooldown (wp : Weapon) (now : Z) (b : BaseShip) : bool :=
  match wp with
  | PhaserWeapon => check_phaser_on_cooldown now b
  | TorpedoWeapon => check_torpedo_on_cooldown now b
  end.

(** The test of the loop of [BaseShip.update] for the sprite at [j], read
    on a store. *)
Definition hits (self : nat) (store : gmap nat Sprite) (j : nat) : bool :=
  match store !! self, store !! j with
  | Some me, Some sprite =>
      negb (Nat.eqb j self)
      && colliderect (rect (sprite_entity me)) (rect (sprite_entity sprite))
      && is_SHIP (entity_type (sprite_entity sprite))
  | _, _ => false
  end.

End MoreRun.

(** ** More of the concrete game *)

Module Fleet.

Import Demo.

(** A second human ship, for player 1. *)
Definition rival : HumanShip := HumanShip_init 1 (hull 300 300 (0, 0)%float 0%float).

(** The player's ship just after a phaser shot at tick 100. *)
Definition hot : HumanShip := fire_phaser 100 player.

(** The player's ship with one torpedo in flight, fired at tick 1300. *)
Definition reloading : HumanShip := with_base (set_torpedo_group [torpedo]) loaded.

(** A mouse-motion event and the key-down of x. *)
Definition mouse_motion : Event := mkEvent 1024 None.
Definition K_x : Z := 120.

(** A timer table with the thrust repeat timer of player 0 set. *)
Definition thrusting : gmap Z Z := {[ USEREVENT + 3 := 100 ]}.

(** The ships of players 0 and 1 in one game. *)
Definition duel : World :=
  mkWorld (<[1%nat := Human rival]> {[ 0%nat := Human player ]}) ∅.

(** Each event goes to both ships: the thrust key pressed at tick 100
    and released at tick 150. *)
Definition thrust_tapped : list (Z * Action) :=
  [ (100, HandleEvent 0 (key_down K_s));
    (100, HandleEvent 1 (key_down K_s));
    (150, HandleEvent 0 (key_up K_s));
    (150, HandleEvent 1 (key_up K_s)) ].

(** Then the rotate-right key pressed at tick 200. *)
Definition right_pressed : list (Z * Action) :=
  [ (200, HandleEvent 0 (key_down K_d));
    (200, HandleEvent 1 (key_down K_d)) ].

(** Then the timer event numbered [USEREVENT + 3], at tick 300. *)
Definition shared_repeat : list (Z * Action) :=
  [ (300, HandleEvent 0 (timer_event (USEREVENT + 3)));
    (300, HandleEvent 1 (timer_event (USEREVENT + 3))) ].

(** A human ship for player 7, and the world [turning] with it as a
    third sprite. *)
Definition outsider : HumanShip := HumanShip_init 7 (hull 500 500 (0, 0)%float 0%float).
Definition convoy : World :=
  mkWorld (<[2%nat := Human outsider]> (store turning)) (timers turning).

(** After the release of rotate-left: the outsider presses rotate-left and
    thrust and gets a repeat event of its own, while player 0 thrusts. *)
Definition convoy_run : list (Z * Action) :=
  [ (70, HandleEvent 2 (key_down K_a));
    (70, HandleEvent 0 (key_down K_s));
    (70, HandleEvent 2 (key_down K_s));
    (75, Update 0 [0%nat; 1%nat; 2%nat]);
    (170, HandleEvent 0 (timer_event (USEREVENT + 8)));
    (170, HandleEvent 2 (timer_event (USEREVENT + 8)));
    (180, HandleEvent 0 (timer_event (USEREVENT + 3)));
    (190, HandleEvent 0 (key_up K_s)) ].

End Fleet.

(** ** Running the statements of a handler *)

Section Statements.

Context {conf : Conf} {libm : Libm}.

Lemma seq_run s1 s2 st : seq s1 s2 st = s2 (s1 st).
Proof. reflexivity. Qed.
Lemma when_true body st : when true body st = body st.
Proof. reflexivity. Qed.
Lemma when_false body st : when false body st = st.
Proof. reflexivity. Qed.
Lemma when_self_run c body self tm :
  when_self c body (self, tm) = when (c self) body (self, tm).
Proof. reflexivity. Qed.
Lemma assign_run f self tm : assign f (self, tm) = (f self, tm).
Proof. reflexivity. Qed.
Lemma time_set_timer_run event millis self tm :
  time_set_timer event millis (self, tm) = (self, set_timer (event self) millis tm).
Proof. reflexivity. Qed.

Lemma handle_events_alive now ev self tm :
  alive (entity (base self)) = true ->
  handle_events now ev (self, tm)
  = _handle_firing_weapon_events now ev (_handle_movement_events ev (self, tm)).
Proof. intros Ha. unfold handle_events. cbn [fst]. rewrite Ha. reflexivity. Qed.

Lemma handle_events_dead now ev self tm :
  alive (entity (base self)) = false ->
  handle_events now ev (self, tm) = (self, tm).
Proof. intros Ha. unfold handle_events. cbn [fst]. rewrite Ha. reflexivity. Qed.

Lemma thrust_eq self :
  thrust self
  = assign_vel
      ((fst (ship_vel self) + cos (ship_ang self * PyFloat.pi / 180))%float,
       (snd (ship_vel self) + sin (ship_ang self * PyFloat.pi / 180))%float) self.
Proof. unfold thrust. destruct (ship_vel self). reflexivity. Qed.

Lemma key_is_Some ev k k' : key ev = Some k -> key_is ev k' = (k =? k').
Proof. intros Hk. unfold key_is. rewrite Hk. reflexivity. Qed.

End Statements.

Ltac unfold_codes :=
  unfold rotate_cc_repeat_event, rotate_cw_repeat_event, acc_repeat_event,
    fire_torpedoes_repeat_event, fire_phaser_repeat_event,
    KEYDOWN, KEYUP, USEREVENT, K_a, K_d, K_e, K_q, K_s in *.

(** Read attributes through the assignments made so far. *)
Ltac read_attributes :=
  cbn [fst snd base entity player_id rotate_ccw_lock torpedo_group phaser_group
       phaser phaser_last_fired torpedo_last_fired last_collided_ship
       entity_type pos vel ang rect alive
       assign_ang assign_vel with_base with_entity set_rotate_ccw_lock
       set_ang set_vel set_pos set_alive set_torpedo_group set_phaser_group
       set_phaser set_phaser_last_fired set_torpedo_last_fired
       set_last_collided_ship ship_ang ship_vel ship_pos
       fire_phaser fire_torpedo negb andb orb] in *.

(** Decide every integer comparison that linear arithmetic settles. *)
Ltac settle_eqb :=
  repeat match goal with
    | |- context [?a =? ?b] =>
        first [ rewrite (proj2 (Z.eqb_eq a b)) by lia
              | rewrite (proj2 (Z.eqb_neq a b)) by lia ]
    end.

(** Run the statements whose guards are settled, innermost first. *)
Ltac run_stmts :=
  repeat first
    [ rewrite seq_run
    | rewrite when_true
    | rewrite when_false
    | rewrite assign_run
    | rewrite time_set_timer_run
    | rewrite thrust_eq
    | rewrite when_self_run; read_attributes; settle_eqb ].

Section Handlers.

Context {conf : Conf} {libm : Libm} {collab : Collaborators}.

(** C6. When a living human ship (player id at least 0) handles a
    key-down event: for the rotate-left key the angle becomes the old
    angle minus 22.5 and the rotate-left repeat timer is set to the
    movement delay; for the rotate-right key the angle becomes the old
    angle plus 22.5 and the rotate-right repeat timer is set; for the
    thrust key the velocity gains (cos(ang*pi/180), sin(ang*pi/180)),
    with [ang] the heading when the event is handled, and the thrust
    repeat timer is set.  Rotation leaves the velocity alone and thrust
    leaves the angle alone. *)
Theorem keydown_movement now ev self tm :
  alive (entity (base self)) = true ->
  0 <= player_id (base self) ->
  type ev = KEYDOWN ->
  let st' := handle_events now ev (self, tm) in
  (key ev = Some K_a ->
     ship_ang (fst st') = (ship_ang self - 22.5)%float
     /\ ship_vel (fst st') = ship_vel self
     /\ snd st' = set_timer (rotate_cc_repeat_event self) MOVEMENT_TIME_DELAY_MS tm)
  /\ (key ev = Some K_d ->
     ship_ang (fst st') = (ship_ang self + 22.5)%float
     /\ ship_vel (fst st') = ship_vel self
     /\ snd st' = set_timer (rotate_cw_repeat_event self) MOVEMENT_TIME_DELAY_MS tm)
  /\ (key ev = Some K_s ->
     ship_vel (fst st')
     = ((fst (ship_vel self) + cos (ship_ang self * PyFloat.pi / 180))%float,
        (snd (ship_vel self) + sin (ship_ang self * PyFloat.pi / 180))%float)
     /\ ship_ang (fst st') = ship_ang self
     /\ snd st' = set_timer (acc_repeat_event self) MOVEMENT_TIME_DELAY_MS tm).
Proof.
  intros Ha Hp Ht st'. subst st'. rewrite handle_events_alive by assumption.
  unfold _handle_firing_weapon_events, _handle_movement_events.
  rewrite Ht.
  split; [|split]; intros Hk; rewrite !(key_is_Some _ _ _ Hk).
  all: unfold_codes; settle_eqb; run_stmts; read_attributes; auto.
Qed.


(** C10. When the ship is not alive, [handle_events] returns the ship
    and the timer table as they were, whatever the event: angle,
    velocity, lock flag, timers, projectile groups and last-fired ticks
    are all unchanged. *)
Theorem handle_events_dead_is_noop now ev self tm :
  alive (entity (base self)) = false ->
  handle_events now ev (self, tm) = (self, tm).
Proof. apply handle_events_dead. Qed.

(** C8. When the torpedo count of a human ship (player id at least 0)
    has reached the maximum, an attempt to fire a torpedo leaves the
    ship exactly as it was: on the key-down of the torpedo key the ship
    is unchanged (a living ship still has its torpedo repeat timer set,
    which happens before the count is tested), and on the torpedo
    repeat event both the ship and the timer table are unchanged.
    Nothing is raised: the handler returns a state. *)
Theorem torpedo_cap_suppresses_fire now ev self tm :
  0 <= player_id (base self) ->
  MAX_TORPEDOES_PER_SHIP <= torpedo_count (base self) ->
  let st' := handle_events now ev (self, tm) in
  (type ev = KEYDOWN -> key ev = Some K_e ->
     fst st' = self
     /\ (alive (entity (base self)) = true ->
         snd st' = set_timer (fire_torpedoes_repeat_event self) TORPEDO_FIRE_CD tm))
  /\ (type ev = fire_torpedoes_repeat_event self ->
     st' = (self, tm)).
Proof.
  intros Hp Hmax st'. subst st'.
  destruct (alive (entity (base self))) eqn:Ha;
    [ rewrite handle_events_alive by assumption
    | rewrite handle_events_dead by assumption;
      split; [ split; [ easy | discriminate ] | easy ] ].
  unfold _handle_firing_weapon_events, _handle_movement_events.
  assert (Hc : (torpedo_count (base self) <? MAX_TORPEDOES_PER_SHIP) = false)
    by (apply Z.ltb_ge; exact Hmax).
  split; [intros Ht Hk; rewrite !(key_is_Some _ _ _ Hk) | intros Ht]; rewrite Ht.
  all: unfold_codes; settle_eqb; run_stmts.
  all: rewrite ?Hc; read_attributes; run_stmts; auto.
Qed.
End Handlers.

(** ** Invariants of the handlers *)

Section Invariants.

Context {conf : Conf} {libm : Libm}.

Lemma keeps_seq I G s1 s2 :
  keeps I G s1 -> keeps I (fun _ => True) s2 -> keeps I G (seq s1 s2).
Proof. intros H1 H2 st HI HG. unfold seq. apply H2; [apply H1|]; auto. Qed.

Lemma keeps_when I G c body :
  (c = true -> keeps I G body) -> keeps I G (when c body).
Proof. intros H st HI HG. unfold when. destruct c; auto. apply H; auto. Qed.

Lemma keeps_when_self I G c body :
  keeps I (fun st => G st /\ c (fst st) = true) body -> keeps I G (when_self c body).
Proof.
  intros H st HI HG. unfold when_self, when.
  destruct (c (fst st)) eqn:Hc; auto.
Qed.

Lemma keeps_assign I G f :
  (forall self tm, I (self, tm) -> G (self, tm) -> I (f self, tm)) ->
  keeps I G (assign f).
Proof. intros H [self tm] HI HG. apply H; auto. Qed.

Lemma keeps_time_set_timer I G event millis :
  (forall self tm, I (self, tm) -> G (self, tm) ->
                   I (self, set_timer (event self) millis tm)) ->
  keeps I G (time_set_timer event millis).
Proof. intros H [self tm] HI HG. apply H; auto. Qed.

Lemma keeps_handle_events I now ev :
  keeps I (fun _ => True) (_handle_movement_events ev) ->
  keeps I (fun _ => True) (_handle_firing_weapon_events now ev) ->
  forall st, I st -> I (handle_events now ev st).
Proof.
  intros Hm Hf st HI. unfold handle_events.
  destruct (negb _); [assumption|].
  unfold seq. apply Hf; [apply Hm|]; auto.
Qed.

End Invariants.

(** Walk down a handler to its assignments and timer calls; the guards on
    the way are collected in the context and in [G]. *)
Ltac walk :=
  repeat first
    [ apply keeps_seq
    | apply keeps_when; intros ?
    | apply keeps_when_self
    | apply keeps_assign; intros ? ? ? ?
    | apply keeps_time_set_timer; intros ? ? ? ? ].

(** At an assignment: unpack the invariant and the guards, and read the
    attributes of the updated ship. *)
Ltac at_leaf :=
  cbv beta in *;
  repeat match goal with
    | H : _ /\ _ |- _ => destruct H
    end;
  rewrite ?thrust_eq; unfold torpedo_count in *; read_attributes.

Section HandlerFacts.

Context {conf : Conf} {libm : Libm}.

Lemma handle_events_keeps_cap now ev st :
  torpedo_count (base (fst st)) <= MAX_TORPEDOES_PER_SHIP ->
  torpedo_count (base (fst (handle_events now ev st))) <= MAX_TORPEDOES_PER_SHIP.
Proof.
  revert st.
  apply (keeps_handle_events
           (fun st => torpedo_count (base (fst st)) <= MAX_TORPEDOES_PER_SHIP)).
  - unfold _handle_movement_events. walk; at_leaf; assumption.
  - unfold _handle_firing_weapon_events. walk; at_leaf; try assumption.
    all: unfold group_add; rewrite length_app; cbn [length].
    all: match goal with
         | H : (_ && _) = true |- _ => apply andb_prop in H; destruct H
         | _ => idtac
         end.
    all: match goal with
         | H : (_ <? _) = true |- _ => apply Z.ltb_lt in H
         end; lia.
Qed.

Lemma handle_events_adds_below_cap now ev st :
  (length (torpedo_group (base (fst st)))
   < length (torpedo_group (base (fst (handle_events now ev st)))))%nat ->
  torpedo_count (base (fst st)) < MAX_TORPEDOES_PER_SHIP.
Proof.
  set (n0 := length (torpedo_group (base (fst st)))).
  assert (H : (fun st' =>
                 length (torpedo_group (base (fst st'))) = n0
                 \/ Z.of_nat n0 < MAX_TORPEDOES_PER_SHIP)
                (handle_events now ev st)).
  { apply keeps_handle_events; [| |left; reflexivity].
    - unfold _handle_movement_events. walk; at_leaf; assumption.
    - unfold _handle_firing_weapon_events. walk; at_leaf; try assumption.
      all: right.
      all: match goal with
           | H : (_ && _) = true |- _ => apply andb_prop in H; destruct H
           | _ => idtac
           end.
      all: match goal with
           | H : (_ <? _) = true |- _ => apply Z.ltb_lt in H
           end.
      all: match goal with
           | H : _ \/ _ |- _ => destruct H
           end; lia. }
  cbv beta in H. unfold torpedo_count. fold n0. lia.
Qed.

Lemma handle_events_keeps_single_phaser now ev st :
  (length (phaser_group (base (fst st))) <= 1)%nat ->
  (length (phaser_group (base (fst (handle_events now ev st)))) <= 1)%nat.
Proof.
  revert st.
  apply (keeps_handle_events
           (fun st => (length (phaser_group (base (fst st))) <= 1)%nat)).
  - unfold _handle_movement_events. walk; at_leaf; assumption.
  - unfold _handle_firing_weapon_events. walk; at_leaf; try assumption.
    all: cbn [group_single_add length]; lia.
Qed.

Lemma handle_events_keeps_identity now ev st :
  player_id (base (fst (handle_events now ev st))) = player_id (base (fst st))
  /\ alive (entity (base (fst (handle_events now ev st))))
     = alive (entity (base (fst st))).
Proof.
  set (p := player_id (base (fst st))).
  set (a := alive (entity (base (fst st)))).
  assert (H : (fun st' =>
                 player_id (base (fst st')) = p
                 /\ alive (entity (base (fst st'))) = a)
                (handle_events now ev st)).
  { apply keeps_handle_events; [| |split; reflexivity].
    - unfold _handle_movement_events. walk; at_leaf; auto.
    - unfold _handle_firing_weapon_events. walk; at_leaf; auto. }
  exact H.
Qed.

End HandlerFacts.

(** A guard that passed although the weapon does not fire on this event. *)
Ltac guard_passed :=
  exfalso;
  unfold keydown_fires, repeat_fires, is_key, check_phaser_on_cooldown,
    check_torpedo_on_cooldown, fire_phaser_repeat_event,
    fire_torpedoes_repeat_event, torpedo_count in *;
  repeat match goal with
    | H : (_ && _) = true |- _ => apply andb_prop in H; destruct H
    end;
  repeat match goal with
    | E : ?f (base ?self) = ?f (base ?h), H : context [?f (base ?self)] |- _ =>
        lazymatch type of H with
        | ?f' (base self) = ?f' (base ?h') => fail
        | _ => rewrite E in H
        end
    end;
  repeat match goal with
    | E : ?c = true, H : context [?c] |- _ =>
        lazymatch type of H with
        | _ = true => fail
        | _ => rewrite E in H
        end
    end;
  cbn [andb orb negb] in *; congruence.

Section Firing.

Context {conf : Conf} {libm : Libm} {collab : Collaborators}.

(** When [fires_on] is false, [handle_events] leaves the weapon alone. *)
Lemma no_fire_keeps_weapon wp now ev h tm :
  fires_on wp now ev h = false ->
  weapon_state wp (base (fst (handle_events now ev (h, tm))))
  = weapon_state wp (base h).
Proof.
  unfold fires_on. intros Hnf.
  destruct (alive (entity (base h))) eqn:Ha;
    [| rewrite handle_events_dead by assumption; reflexivity ].
  cbn [andb] in Hnf. apply orb_false_elim in Hnf. destruct Hnf as [Hk Hr].
  destruct wp.
  - assert (H : (fun st' =>
                   player_id (base (fst st')) = player_id (base h)
                   /\ phaser_last_fired (base (fst st')) = phaser_last_fired (base h)
                   /\ phaser_group (base (fst st')) = phaser_group (base h)
                   /\ phaser (base (fst st')) = phaser (base h))
                  (handle_events now ev (h, tm))).
    { apply keeps_handle_events; [| |auto].
      - unfold _handle_movement_events. walk; at_leaf; auto.
      - unfold _handle_firing_weapon_events. walk; at_leaf; auto.
        all: guard_passed. }
    cbv beta in H. destruct H as (_ & H1 & H2 & H3).
    unfold weapon_state. rewrite H1, H2, H3. reflexivity.
  - assert (H : (fun st' =>
                   player_id (base (fst st')) = player_id (base h)
                   /\ torpedo_last_fired (base (fst st')) = torpedo_last_fired (base h)
                   /\ torpedo_group (base (fst st')) = torpedo_group (base h))
                  (handle_events now ev (h, tm))).
    { apply keeps_handle_events; [| |auto].
      - unfold _handle_movement_events. walk; at_leaf; auto.
      - unfold _handle_firing_weapon_events. walk; at_leaf; auto.
        all: guard_passed. }
    cbv beta in H. destruct H as (_ & H1 & H2).
    unfold weapon_state. rewrite H1, H2. reflexivity.
Qed.

End Firing.

Section FiringEffect.

Context {conf : Conf} {libm : Libm} {collab : Collaborators}.

Lemma key_is_true ev k : key_is ev k = true -> key ev = Some k.
Proof.
  unfold key_is. destruct (key ev) as [k'|]; [|discriminate].
  intros H. apply Z.eqb_eq in H. congruence.
Qed.

(** When [fires_on] is true, [handle_events] does to the ship what the
    firing of the weapon does, and nothing else. *)
Lemma fires_runs_fire wp now ev h tm :
  0 <= player_id (base h) ->
  fires_on wp now ev h = true ->
  fst (handle_events now ev (h, tm))
  = match wp with
    | PhaserWeapon => fire_phaser now h
    | TorpedoWeapon => fire_torpedo now h
    end.
Proof.
  unfold fires_on. intros Hp Hf.
  apply andb_prop in Hf. destruct Hf as [Ha Hf].
  rewrite handle_events_alive by assumption.
  unfold _handle_firing_weapon_events, _handle_movement_events.
  apply orb_prop in Hf. destruct Hf as [Hf|Hf]; destruct wp;
    unfold keydown_fires, repeat_fires, is_key in Hf;
    repeat match goal with
      | H : (_ && _) = true |- _ => apply andb_prop in H; destruct H
      end;
    repeat match goal with
      | H : (_ =? _) = true |- _ => apply Z.eqb_eq in H
      | H : key_is _ _ = true |- _ => apply key_is_true in H
      end.
  all: match goal with H : type _ = _ |- _ => rewrite H end.
  all: repeat match goal with
         | H : key _ = Some _ |- _ => rewrite !(key_is_Some _ _ _ H); clear H
         end.
  all: unfold_codes; settle_eqb; run_stmts.
  all: repeat match goal with
         | H : ?c = true |- context [?c] => rewrite H
         end; cbn [andb negb]; run_stmts.
  all: reflexivity.
Qed.

End FiringEffect.

Section Timers.

Context {conf : Conf} {libm : Libm} {collab : Collaborators}.

Lemma seq_after (I : HumanShip * gmap Z Z -> Prop) s1 s2 st :
  (forall st', s1 st = st' -> I (s2 st')) -> I (seq s1 s2 st).
Proof. intros H. apply H. reflexivity. Qed.

Lemma keeps_run (I : HumanShip * gmap Z Z -> Prop) s st :
  keeps I (fun _ => True) s -> I st -> I (s st).
Proof. intros H HI. apply H; auto. Qed.

Lemma set_timer_off event millis (tm : gmap Z Z) id :
  tm !! id = None ->
  (0 < millis -> event <> id) ->
  set_timer event millis tm !! id = None.
Proof.
  intros Hoff Hne. unfold set_timer.
  destruct (Z.leb_spec millis 0).
  - apply lookup_delete_None. right. assumption.
  - rewrite lookup_insert_ne; auto.
Qed.

Lemma set_timer_zero event (tm : gmap Z Z) : set_timer event 0 tm !! event = None.
Proof. unfold set_timer. cbn. apply lookup_delete_eq. Qed.

(** Only the key-down of a movement key sets its repeat timer. *)
Lemma handle_events_keeps_timer_off m now ev st :
  is_key ev KEYDOWN (movement_key m) = false ->
  snd st !! movement_repeat_event m (fst st) = None ->
  snd (handle_events now ev st) !! movement_repeat_event m (fst st) = None.
Proof.
  intros Hnk Hoff.
  set (p := player_id (base (fst st))).
  assert (H : (fun st' =>
                 player_id (base (fst st')) = p
                 /\ snd st' !! movement_repeat_event m (fst st) = None)
                (handle_events now ev st)).
  { apply keeps_handle_events; [| |auto].
    - unfold _handle_movement_events. walk; at_leaf; auto.
      all: split; [assumption|].
      all: apply set_timer_off; [assumption|intros ?].
      all: destruct m; unfold movement_repeat_event, movement_key in *; subst p.
      all: unfold_codes; try lia.
      all: exfalso; unfold is_key in Hnk; unfold_codes.
      all: repeat match goal with
             | E : ?c = true, H : context [?c] |- _ =>
                 lazymatch type of H with
                 | _ = true => fail
                 | _ => rewrite E in H
                 end
             end; cbn [andb] in Hnk; discriminate.
    - unfold _handle_firing_weapon_events. walk; at_leaf; auto.
      all: split; [assumption|].
      all: apply set_timer_off; [assumption|intros ?].
      all: destruct m; unfold movement_repeat_event in *; subst p.
      all: unfold_codes; lia. }
  apply H.
Qed.

Lemma set_timer_other event millis (tm : gmap Z Z) id :
  event <> id -> set_timer event millis tm !! id = tm !! id.
Proof.
  intros Hne. unfold set_timer. destruct (millis <=? 0).
  - now apply lookup_delete_ne.
  - now apply lookup_insert_ne.
Qed.

(** A ship that handles an event leaves alone every timer whose number is
    none of its own five. *)
Lemma handle_events_keeps_foreign_timer n now ev st :
  ~ In n (repeat_events (fst st)) ->
  snd (handle_events now ev st) !! n = snd st !! n.
Proof.
  intros Hn.
  remember (player_id (base (fst st))) as p eqn:Ep.
  remember (snd st !! n) as v eqn:Ev.
  assert (Hp : n <> USEREVENT + p + 1 /\ n <> USEREVENT + p + 2
               /\ n <> USEREVENT + p + 3 /\ n <> USEREVENT + p + 4
               /\ n <> USEREVENT + p + 5).
  { unfold repeat_events in Hn. cbn [In] in Hn.
    unfold rotate_cc_repeat_event, rotate_cw_repeat_event, acc_repeat_event,
      fire_torpedoes_repeat_event, fire_phaser_repeat_event in Hn.
    rewrite <- Ep in Hn.
    repeat split; intros E; apply Hn; rewrite E; auto 6. }
  clear Hn.
  assert (H : (fun st' => player_id (base (fst st')) = p /\ snd st' !! n = v)
                (handle_events now ev st)).
  { apply keeps_handle_events; [| |auto].
    - unfold _handle_movement_events. walk; at_leaf; auto.
      all: split; [assumption|].
      all: rewrite set_timer_other; [assumption|].
      all: unfold rotate_cc_repeat_event, rotate_cw_repeat_event, acc_repeat_event.
      all: lia.
    - unfold _handle_firing_weapon_events. walk; at_leaf; auto.
      all: split; [assumption|].
      all: rewrite set_timer_other; [assumption|].
      all: unfold fire_torpedoes_repeat_event, fire_phaser_repeat_event.
      all: read_attributes; lia. }
  cbv beta in H. destruct H as [_ H]. exact H.
Qed.

(** The key-up of a movement key removes its repeat timer. *)
Lemma keyup_removes_timer m now ev self tm :
  alive (entity (base self)) = true ->
  type ev = KEYUP ->
  key ev = Some (movement_key m) ->
  snd (handle_events now ev (self, tm)) !! movement_repeat_event m self = None.
Proof.
  intros Ha Ht Hk.
  set (I := fun st' : HumanShip * gmap Z Z =>
              player_id (base (fst st')) = player_id (base self)
              /\ snd st' !! movement_repeat_event m self = None).
  enough (H : I (handle_events now ev (self, tm))) by apply H.
  rewrite handle_events_alive by assumption.
  apply keeps_run.
  { unfold _handle_firing_weapon_events. rewrite Ht. unfold_codes. settle_eqb.
    subst I. walk; at_leaf; auto; try discriminate.
    all: split; [assumption|].
    all: apply set_timer_off; [assumption|intros ?].
    all: destruct m; unfold movement_repeat_event in *.
    all: unfold_codes; lia. }
  unfold _handle_movement_events. rewrite Ht, !(key_is_Some _ _ _ Hk).
  apply seq_after; intros st1 <-.
  replace (KEYUP =? KEYDOWN) with false by reflexivity. rewrite when_false.
  apply seq_after; intros st2 <-.
  replace (KEYUP =? KEYUP) with true by reflexivity. rewrite when_true.
  apply keeps_run.
  { subst I. walk; at_leaf; auto. }
  subst I. cbv beta.
  destruct m; cbn [movement_key movement_repeat_event]; unfold_codes; settle_eqb;
    run_stmts; read_attributes; (split; [reflexivity|]).
  all: apply set_timer_zero.
Qed.

End Timers.

(** ** Collisions *)

Section Collisions.

Context {conf : Conf} {libm : Libm} {collab : Collaborators}.

Lemma collide_hit now self j (st : gmap nat Sprite) me sprite :
  st !! self = Some me ->
  st !! j = Some sprite ->
  j <> self ->
  colliderect (rect (sprite_entity me)) (rect (sprite_entity sprite)) = true ->
  entity_type (sprite_entity sprite) = SHIP ->
  let new_self_vel :=
    ((fst (sprite_vel me) * 0.2 + fst (sprite_vel sprite) * 0.75)%float,
     (snd (sprite_vel me) * 0.2 + snd (sprite_vel sprite) * 0.75)%float) in
  let new_other_vel :=
    ((fst (sprite_vel sprite) * 0.2 + fst (sprite_vel me) * 0.75)%float,
     (snd (sprite_vel sprite) * 0.2 + snd (sprite_vel me) * 0.75)%float) in
  let me' :=
    sprite_with_ship (set_last_collided_ship (Some now))
      (sprite_with_entity (set_vel new_self_vel) me) in
  let sprite' := sprite_with_entity (set_vel new_other_vel) sprite in
  let overlap := check_overlapping_sprites me' sprite' in
  let nudge_x :=
    sprite_with_entity
      (fun e => set_pos ((fst (pos e) + fst (vel e))%float, snd (pos e)) e) in
  let nudge_y :=
    sprite_with_entity
      (fun e => set_pos (fst (pos e), (snd (pos e) + snd (vel e))%float) e) in
  let sprite'' := if fst overlap then nudge_x sprite' else sprite' in
  let sprite''' := if snd overlap then nudge_y sprite'' else sprite'' in
  collide now self st j = <[j := sprite''']> (<[self := me']> st).
Proof.
  intros Hme Hsp Hne Hcol Hty. cbv zeta. unfold collide.
  rewrite Hme, Hsp, Hcol, Hty.
  apply Nat.eqb_neq in Hne. rewrite Hne. cbn [negb andb is_SHIP].
  unfold sprite_vel.
  destruct (vel (sprite_entity me)) as [svx svy].
  destruct (vel (sprite_entity sprite)) as [ovx ovy].
  cbn [fst snd].
  destruct (check_overlapping_sprites _ _) as [ox oy].
  reflexivity.
Qed.

(** C1. When the loop of [BaseShip.update] comes to a sprite other than
    [self] that is a ship and whose rectangle collides with the
    rectangle of [self], then on each axis the new velocity of [self]
    is 0.2 times its old velocity plus 0.75 times the old velocity of
    the other ship, and the new velocity of the other ship is 0.2 times
    its old velocity plus 0.75 times the old velocity of [self]. *)
Theorem collide_blends_velocities now self j (st : gmap nat Sprite) me sprite :
  st !! self = Some me ->
  st !! j = Some sprite ->
  j <> self ->
  colliderect (rect (sprite_entity me)) (rect (sprite_entity sprite)) = true ->
  entity_type (sprite_entity sprite) = SHIP ->
  let st' := collide now self st j in
  sprite_vel <$> st' !! self
  = Some ((fst (sprite_vel me) * 0.2 + fst (sprite_vel sprite) * 0.75)%float,
          (snd (sprite_vel me) * 0.2 + snd (sprite_vel sprite) * 0.75)%float)
  /\ sprite_vel <$> st' !! j
     = Some ((fst (sprite_vel sprite) * 0.2 + fst (sprite_vel me) * 0.75)%float,
             (snd (sprite_vel sprite) * 0.2 + snd (sprite_vel me) * 0.75)%float).
Proof.
  intros Hme Hsp Hne Hcol Hty st'. subst st'.
  rewrite (collide_hit now self j st me sprite) by assumption.
  rewrite lookup_insert_ne by assumption.
  rewrite !lookup_insert_eq.
  split.
  - destruct me; reflexivity.
  - destruct (check_overlapping_sprites _ _) as [[] []]; destruct sprite; reflexivity.
Qed.

(** C9. In the same turn of the loop, the position of the other ship
    moves, on each axis that [check_overlapping_sprites] reports, by
    the velocity that ship has just been given on that axis, and stays
    put on an axis that is not reported; the position of [self], and of
    every sprite but the other ship, is unchanged. *)
Theorem collide_nudges_only_other now self j (st : gmap nat Sprite) me sprite :
  st !! self = Some me ->
  st !! j = Some sprite ->
  j <> self ->
  colliderect (rect (sprite_entity me)) (rect (sprite_entity sprite)) = true ->
  entity_type (sprite_entity sprite) = SHIP ->
  let st' := collide now self st j in
  let new_self_vel :=
    ((fst (sprite_vel me) * 0.2 + fst (sprite_vel sprite) * 0.75)%float,
     (snd (sprite_vel me) * 0.2 + snd (sprite_vel sprite) * 0.75)%float) in
  let new_other_vel :=
    ((fst (sprite_vel sprite) * 0.2 + fst (sprite_vel me) * 0.75)%float,
     (snd (sprite_vel sprite) * 0.2 + snd (sprite_vel me) * 0.75)%float) in
  let overlap :=
    check_overlapping_sprites
      (sprite_with_ship (set_last_collided_ship (Some now))
         (sprite_with_entity (set_vel new_self_vel) me))
      (sprite_with_entity (set_vel new_other_vel) sprite) in
  sprite_pos <$> st' !! j
  = Some ((if fst overlap
           then (fst (sprite_pos sprite) + fst new_other_vel)%float
           else fst (sprite_pos sprite)),
          (if snd overlap
           then (snd (sprite_pos sprite) + snd new_other_vel)%float
           else snd (sprite_pos sprite)))
  /\ sprite_pos <$> st' !! self = Some (sprite_pos me)
  /\ forall k, k <> j -> sprite_pos <$> st' !! k = sprite_pos <$> st !! k.
Proof.
  intros Hme Hsp Hne Hcol Hty st'. subst st'. cbv zeta.
  rewrite (collide_hit now self j st me sprite) by assumption.
  split; [|split].
  - rewrite lookup_insert_eq.
    destruct (check_overlapping_sprites _ _) as [[] []];
      destruct sprite as [e|b|h]; cbn; unfold sprite_pos; cbn;
      try destruct (pos _); reflexivity.
  - rewrite lookup_insert_ne by assumption. rewrite lookup_insert_eq.
    destruct me; reflexivity.
  - intros k Hk. rewrite lookup_insert_ne by auto.
    rewrite lookup_insert. case_decide as Hs; [|reflexivity].
    subst k. rewrite Hme. destruct me; reflexivity.
Qed.

End Collisions.

(** ** What the steps of the game leave alone *)

Section Frames.

Context {conf : Conf} {libm : Libm} {collab : Collaborators}.

Lemma sprite_arms_with_entity f s :
  sprite_arms (sprite_with_entity f s) = sprite_arms s.
Proof. destruct s; reflexivity. Qed.

Lemma sprite_arms_last_collided t s :
  sprite_arms (sprite_with_ship (set_last_collided_ship t) s) = sprite_arms s.
Proof. destruct s; reflexivity. Qed.

Lemma collide_arms now self (st : gmap nat Sprite) j k :
  sprite_arms <$> collide now self st j !! k = sprite_arms <$> st !! k.
Proof.
  unfold collide.
  destruct (st !! self) as [me|] eqn:Hme; [|reflexivity].
  destruct (st !! j) as [sprite|] eqn:Hsp; [|reflexivity].
  destruct (_ && _); [|reflexivity].
  destruct (vel (sprite_entity me)) as [svx svy].
  destruct (vel (sprite_entity sprite)) as [ovx ovy].
  destruct (check_overlapping_sprites _ _) as [ox oy].
  rewrite lookup_insert. case_decide as Hj.
  - subst k. rewrite Hsp. cbn [fmap option_fmap option_map].
    destruct ox, oy; now rewrite !sprite_arms_with_entity.
  - rewrite lookup_insert. case_decide as Hs; [|reflexivity].
    subst k. rewrite Hme. cbn [fmap option_fmap option_map].
    now rewrite sprite_arms_last_collided, sprite_arms_with_entity.
Qed.

Lemma update_arms now self target_group (st : gmap nat Sprite) k :
  sprite_arms <$> update now self target_group st !! k = sprite_arms <$> st !! k.
Proof.
  unfold update.
  transitivity
    (sprite_arms <$> alter (sprite_with_entity SpaceEntity_update) self st !! k).
  - generalize (alter (sprite_with_entity SpaceEntity_update) self st).
    induction target_group as [|j l IH]; intros st0; [reflexivity|].
    cbn [foldl]. rewrite IH. apply collide_arms.
  - rewrite lookup_alter. case_decide as Hs; [|reflexivity].
    subst k. destruct (st !! self) as [s|]; [|reflexivity].
    cbn [fmap option_fmap option_map]. now rewrite sprite_arms_with_entity.
Qed.

Lemma sprite_arms_ship s s' b' :
  sprite_arms s' = sprite_arms s ->
  sprite_ship s' = Some b' ->
  exists b, sprite_ship s = Some b /\ arms b = arms b'.
Proof.
  unfold sprite_arms. intros H Hb'. injection H as Hk Ha.
  rewrite Hb' in Ha. destruct (sprite_ship s) as [b|]; [|discriminate].
  exists b. split; [reflexivity|]. cbn in Ha. congruence.
Qed.

Lemma length_omap_le {A B} (f : A -> option B) l :
  (length (omap f l) <= length l)%nat.
Proof.
  induction l as [|x l IH]; [reflexivity|].
  cbn [omap list_omap]. destruct (f x); cbn [length]; lia.
Qed.

(** A property of ships that reads only their weapons is kept by every
    step of the game as soon as [handle_events] and [update_groups] keep
    it. *)
Lemma step_keeps_ships (P : BaseShip -> Prop) :
  (forall b b', arms b = arms b' -> P b -> P b') ->
  (forall now ev st, P (base (fst st)) -> P (base (fst (handle_events now ev st)))) ->
  (forall targets b, P b -> P (update_groups targets b)) ->
  forall w a, every_ship P w -> every_ship P (step w a).
Proof.
  intros Harms Hev Hgr w [now act] Hw k s' b' Hs' Hb'.
  destruct act as [i ev|i tg|i tg|i]; cbn [step] in Hs'.
  - destruct (store w !! i) as [[e|b|h]|] eqn:Hi; eauto.
    destruct (handle_events now ev (h, timers w)) as [h' tm'] eqn:Hh.
    cbn [store] in Hs'. rewrite lookup_insert in Hs'.
    case_decide; [|eauto]. subst k.
    injection Hs' as <-. injection Hb' as <-.
    change h' with (fst (h', tm')). rewrite <- Hh.
    apply Hev. cbn [fst]. eapply Hw; [exact Hi|reflexivity].
  - destruct (store w !! i ≫= sprite_ship) as [_|]; [|eauto].
    cbn [store] in Hs'.
    pose proof (update_arms now i tg (store w) k) as Hu.
    rewrite Hs' in Hu. destruct (store w !! k) as [s|] eqn:Hk; [|discriminate].
    cbn [fmap option_fmap option_map] in Hu. apply (inj Some) in Hu.
    destruct (sprite_arms_ship s s' b' Hu Hb') as (b & Hb & Hab).
    eapply Harms; [exact Hab|]. eapply Hw; eauto.
  - cbn [store] in Hs'. rewrite lookup_alter in Hs'.
    case_decide; [|eauto]. subst k.
    destruct (store w !! i) as [s|] eqn:Hi; [|discriminate].
    injection Hs' as <-.
    destruct s as [e|b|h]; cbn in Hb'; [discriminate| |]; injection Hb' as <-.
    + apply Hgr. eapply Hw; [exact Hi|reflexivity].
    + apply Hgr. eapply Hw; [exact Hi|reflexivity].
  - cbn [store] in Hs'. rewrite lookup_alter in Hs'.
    case_decide; [|eauto]. subst k.
    destruct (store w !! i) as [s|] eqn:Hi; [|discriminate].
    injection Hs' as <-.
    destruct (sprite_arms_ship s _ b' (sprite_arms_with_entity _ s) Hb')
      as (b & Hb & Hab).
    eapply Harms; [exact Hab|]. eapply Hw; eauto.
Qed.

Lemma run_keeps_ships (P : BaseShip -> Prop) :
  (forall b b', arms b = arms b' -> P b -> P b') ->
  (forall now ev st, P (base (fst st)) -> P (base (fst (handle_events now ev st)))) ->
  (forall targets b, P b -> P (update_groups targets b)) ->
  forall tr w, every_ship P w -> every_ship P (run w tr).
Proof.
  intros Harms Hev Hgr tr.
  induction tr as [|a tr IH]; intros w Hw; [exact Hw|].
  cbn [run foldl]. apply IH. now apply step_keeps_ships.
Qed.

End Frames.

(** ** The human ship along a run *)

Section HumanSteps.

Context {conf : Conf} {libm : Libm} {collab : Collaborators}.

Lemma human_at_Some w i h : human_at w i = Some h <-> store w !! i = Some (Human h).
Proof.
  unfold human_at. split.
  - destruct (store w !! i) as [[e|b|h']|]; congruence.
  - intros ->. reflexivity.
Qed.


Lemma sprite_arms_human s h :
  sprite_arms s = sprite_arms (Human h) ->
  exists h', s = Human h' /\ arms (base h') = arms (base h).
Proof.
  unfold sprite_arms. destruct s as [e|b|h']; cbn; intros H; try discriminate.
  exists h'. split; [reflexivity|]. congruence.
Qed.

Lemma step_timers w a :
  (forall j ev, snd a <> HandleEvent j ev) -> timers (step w a) = timers w.
Proof.
  destruct a as [now [j ev|j tg|j tg|j]]; cbn [snd step]; intros H.
  - now destruct (H j ev).
  - now destruct (store w !! j ≫= sprite_ship).
  - reflexivity.
  - reflexivity.
Qed.

Lemma step_handle_event w now i ev h :
  human_at w i = Some h ->
  step w (now, HandleEvent i ev)
  = mkWorld (<[i := Human (fst (handle_events now ev (h, timers w)))]> (store w))
      (snd (handle_events now ev (h, timers w))).
Proof.
  intros Hh. apply human_at_Some in Hh. cbn [step]. rewrite Hh.
  now destruct (handle_events now ev (h, timers w)).
Qed.

(** Through any step the sprite at [i] stays the same human ship; its
    last-fired ticks change only when it handles an event. *)
Lemma step_human w a i h :
  human_at w i = Some h ->
  exists h',
    human_at (step w a) i = Some h'
    /\ player_id (base h') = player_id (base h)
    /\ ((forall ev, snd a <> HandleEvent i ev) ->
        phaser_last_fired (base h') = phaser_last_fired (base h)
        /\ torpedo_last_fired (base h') = torpedo_last_fired (base h)).
Proof.
  intros Hh. pose proof (proj1 (human_at_Some _ _ _) Hh) as Hs.
  destruct a as [now [j ev|j tg|j tg|j]]; cbn [snd].
  - destruct (decide (j = i)) as [->|Hne].
    + rewrite (step_handle_event _ _ _ _ _ Hh).
      eexists. split; [apply human_at_Some; cbn [store]; apply lookup_insert_eq|].
      split; [apply handle_events_keeps_identity|].
      intros H. now destruct (H ev).
    + exists h. split; [|auto].
      apply human_at_Some. cbn [step].
      destruct (store w !! j) as [[e|b|hj]|]; try assumption.
      destruct (handle_events now ev (hj, timers w)). cbn [store].
      now rewrite lookup_insert_ne.
  - cbn [step]. destruct (store w !! j ≫= sprite_ship) as [_|]; [|exists h; auto].
    pose proof (update_arms now j tg (store w) i) as Hu. rewrite Hs in Hu.
    destruct (update now j tg (store w) !! i) as [s'|] eqn:Hs'; [|discriminate].
    cbn [fmap option_fmap option_map] in Hu. apply (inj Some) in Hu.
    destruct (sprite_arms_human _ _ Hu) as (h' & -> & Ha).
    exists h'. split; [apply human_at_Some; exact Hs'|].
    unfold arms in Ha. injection Ha as Hp _ _ _ Hpl Htl. auto.
  - cbn [step]. destruct (decide (j = i)) as [->|Hne].
    + eexists. split.
      * apply human_at_Some. cbn [store]. rewrite lookup_alter_eq, Hs. reflexivity.
      * auto.
    + exists h. split; [|auto]. apply human_at_Some. cbn [store].
      now rewrite lookup_alter_ne.
  - cbn [step]. destruct (decide (j = i)) as [->|Hne].
    + eexists. split.
      * apply human_at_Some. cbn [store]. rewrite lookup_alter_eq, Hs. reflexivity.
      * auto.
    + exists h. split; [|auto]. apply human_at_Some. cbn [store].
      now rewrite lookup_alter_ne.
Qed.

(** No step makes a sprite a human ship, or changes a human ship's
    player id. *)
Lemma step_human_back w a j h' :
  human_at (step w a) j = Some h' ->
  exists h, human_at w j = Some h /\ player_id (base h') = player_id (base h).
Proof.
  intros Hh'.
  destruct (human_at w j) as [h|] eqn:Hh.
  - exists h. split; [reflexivity|].
    destruct (step_human w a j h Hh) as (h'' & Hh'' & Hid & _). congruence.
  - exfalso. apply human_at_Some in Hh'. unfold human_at in Hh.
    destruct a as [now [k ev|k tg|k tg|k]]; cbn [step] in Hh'.
    + destruct (store w !! k) as [[e|b|hk]|] eqn:Hk;
        try (rewrite Hh' in Hh; discriminate).
      destruct (handle_events now ev (hk, timers w)). cbn [store] in Hh'.
      destruct (decide (k = j)) as [->|Hne].
      * rewrite Hk in Hh. discriminate.
      * rewrite lookup_insert_ne in Hh' by assumption.
        rewrite Hh' in Hh. discriminate.
    + destruct (store w !! k ≫= sprite_ship) as [_|];
        [|rewrite Hh' in Hh; discriminate].
      cbn [store] in Hh'.
      pose proof (update_arms now k tg (store w) j) as Hu. rewrite Hh' in Hu.
      destruct (store w !! j) as [[e|b|h]|]; try discriminate.
    + cbn [store] in Hh'. destruct (decide (k = j)) as [->|Hne].
      * rewrite lookup_alter_eq in Hh'.
        destruct (store w !! j) as [[e|b|h]|]; discriminate.
      * rewrite lookup_alter_ne in Hh' by assumption.
        rewrite Hh' in Hh. discriminate.
    + cbn [store] in Hh'. destruct (decide (k = j)) as [->|Hne].
      * rewrite lookup_alter_eq in Hh'.
        destruct (store w !! j) as [[e|b|h]|]; discriminate.
      * rewrite lookup_alter_ne in Hh' by assumption.
        rewrite Hh' in Hh. discriminate.
Qed.





End HumanSteps.

(** ** Weapons along a run *)

Section Weapons.

Context {conf : Conf} {libm : Libm} {collab : Collaborators}.

Lemma update_groups_torpedoes targets b :
  torpedo_count b <= MAX_TORPEDOES_PER_SHIP ->
  torpedo_count (update_groups targets b) <= MAX_TORPEDOES_PER_SHIP.
Proof.
  unfold torpedo_count, update_groups. cbn [torpedo_group set_phaser_group set_torpedo_group].
  pose proof (length_omap_le (PhotonTorpedo_update targets) (torpedo_group b)). lia.
Qed.

Lemma update_groups_phasers targets b :
  (length (phaser_group b) <= 1)%nat ->
  (length (phaser_group (update_groups targets b)) <= 1)%nat.
Proof.
  unfold update_groups. cbn [phaser_group set_phaser_group set_torpedo_group].
  pose proof (length_omap_le (Phaser_update targets) (phaser_group b)). lia.
Qed.

(** A ship comes out of its constructor with both groups empty. *)
Lemma new_ship_has_no_projectiles pid e :
  torpedo_count (BaseShip_init pid e) = 0
  /\ phaser_group (BaseShip_init pid e) = []
  /\ base (HumanShip_init pid e) = BaseShip_init pid e.
Proof. repeat split. Qed.

(** C3. If no ship of the store has more torpedoes in flight than
    [MAX_TORPEDOES_PER_SHIP], then after any run of events, updates,
    group updates and kills no ship has.  And whenever [handle_events]
    makes the torpedo group of a ship grow, on the key-down path or on
    the repeat-timer path, the count before the event was strictly
    below the maximum. *)
Theorem torpedo_count_never_exceeds_cap w tr :
  (every_ship (fun b => torpedo_count b <= MAX_TORPEDOES_PER_SHIP) w ->
   every_ship (fun b => torpedo_count b <= MAX_TORPEDOES_PER_SHIP) (run w tr))
  /\ (forall now ev st,
        (length (torpedo_group (base (fst st)))
         < length (torpedo_group (base (fst (handle_events now ev st)))))%nat ->
        torpedo_count (base (fst st)) < MAX_TORPEDOES_PER_SHIP).
Proof.
  split.
  - apply run_keeps_ships.
    + unfold arms, torpedo_count. intros b b' H. injection H as _ <- _ _ _ _. auto.
    + intros. now apply handle_events_keeps_cap.
    + intros. now apply update_groups_torpedoes.
  - intros. eapply handle_events_adds_below_cap; eauto.
Qed.

(** C5. If the phaser group of every ship holds at most one beam, then
    after any run of events, updates, group updates and kills it still
    does.  And when a human ship (player id at least 0) fires its
    phaser, the group holds afterwards the new beam alone, whatever it
    held before, and [phaser] is that beam. *)
Theorem phaser_group_holds_one_beam w tr :
  (every_ship (fun b => (length (phaser_group b) <= 1)%nat) w ->
   every_ship (fun b => (length (phaser_group b) <= 1)%nat) (run w tr))
  /\ (forall now ev self tm,
        0 <= player_id (base self) ->
        fires_on PhaserWeapon now ev self = true ->
        let beam :=
          mkPhaser (player_id (base self)) (ship_pos self) (ship_vel self)
            (ship_ang self) in
        let self' := fst (handle_events now ev (self, tm)) in
        phaser_group (base self') = [beam] /\ phaser (base self') = Some beam).
Proof.
  split.
  - apply run_keeps_ships.
    + unfold arms. intros b b' H. injection H as _ _ <- _ _ _. auto.
    + intros. now apply handle_events_keeps_single_phaser.
    + intros. now apply update_groups_phasers.
  - intros now ev self tm Hp Hf beam self'. subst self'.
    rewrite (fires_runs_fire PhaserWeapon now ev self tm Hp Hf).
    split; reflexivity.
Qed.







End Weapons.

(** ** Repeat timers along a run *)

Section RepeatTimers.

Context {conf : Conf} {libm : Libm} {collab : Collaborators}.

Lemma movement_repeat_event_player m h h' :
  player_id (base h') = player_id (base h) ->
  movement_repeat_event m h' = movement_repeat_event m h.
Proof.
  intros H. destruct m; cbn [movement_repeat_event];
    unfold rotate_cc_repeat_event, rotate_cw_repeat_event, acc_repeat_event;
    now rewrite H.
Qed.

Lemma period_off (tm : gmap Z Z) id : tm !! id = None -> period tm id = 0.
Proof. unfold period. now intros ->. Qed.

(** A repeat event whose timer is off is not delivered. *)
Lemma off_not_delivered m h (tm : gmap Z Z) ev :
  0 <= player_id (base h) ->
  tm !! movement_repeat_event m h = None ->
  delivers tm ev = true ->
  type ev <> movement_repeat_event m h.
Proof.
  intros Hp Hoff Hd Ht. unfold delivers in Hd. rewrite Ht in Hd.
  rewrite (period_off _ _ Hoff) in Hd.
  replace (movement_repeat_event m h <? USEREVENT) with false in Hd;
    [discriminate|].
  symmetry. apply Z.ltb_ge. destruct m; cbn [movement_repeat_event]; unfold_codes; lia.
Qed.

Lemma repeat_events_player h h' :
  player_id (base h') = player_id (base h) -> repeat_events h' = repeat_events h.
Proof.
  intros H. unfold repeat_events, rotate_cc_repeat_event, rotate_cw_repeat_event,
    acc_repeat_event, fire_torpedoes_repeat_event, fire_phaser_repeat_event.
  now rewrite H.
Qed.

Lemma step_keeps_unshared n i w a :
  number_unshared n i w -> number_unshared n i (step w a).
Proof.
  intros Hu j h' Hne Hh'.
  destruct (step_human_back w a j h' Hh') as (h & Hh & Hid).
  rewrite (repeat_events_player h h' Hid). exact (Hu j h Hne Hh).
Qed.

(** A step of another sprite than a human ship, or of a human ship with
    other event numbers, leaves the timer numbered [n] as it is. *)
Lemma step_keeps_foreign_timer n i w now j ev :
  j <> i ->
  number_unshared n i w ->
  timers (step w (now, HandleEvent j ev)) !! n = timers w !! n.
Proof.
  intros Hne Hu. cbn [step].
  destruct (store w !! j) as [[e|b|hj]|] eqn:Hj; try reflexivity.
  assert (Hh : human_at w j = Some hj) by now apply human_at_Some.
  pose proof (handle_events_keeps_foreign_timer n now ev (hj, timers w)
                (Hu j hj Hne Hh)) as Hk.
  destruct (handle_events now ev (hj, timers w)). exact Hk.
Qed.

(** While the ship at [i] handles no key-down of the key and no other
    human ship has the key's event number, the repeat timer stays off
    and its event is not delivered. *)
Lemma run_keeps_timer_off m i self tr :
  forall w h,
    human_at w i = Some h ->
    player_id (base h) = player_id (base self) ->
    0 <= player_id (base self) ->
    timers w !! movement_repeat_event m self = None ->
    number_unshared (movement_repeat_event m self) i w ->
    key_stays_up m i tr ->
    deliverable w tr ->
    timers (run w tr) !! movement_repeat_event m self = None
    /\ Forall
         (fun a =>
            match snd a with
            | HandleEvent _ ev => type ev <> movement_repeat_event m self
            | _ => True
            end) tr.
Proof.
  unfold key_stays_up.
  induction tr as [|a tr IH]; intros w h Hh Hid Hp Hoff Hu Hnk Hd; [split; auto|].
  apply Forall_cons in Hnk. destruct Hnk as [Hna Hnk].
  cbn [deliverable] in Hd. destruct Hd as [Hda Hd].
  destruct (step_human w a i h Hh) as (h' & Hh' & Hid' & _).
  assert (Hoff' : timers (step w a) !! movement_repeat_event m self = None).
  { destruct a as [now act]. cbn [snd] in *.
    destruct act as [j ev|j tg|j tg|j];
      try (rewrite step_timers; [assumption|cbn [snd]; intros; discriminate]).
    destruct (decide (j = i)) as [->|Hne].
    - rewrite (step_handle_event _ _ _ _ _ Hh). cbn [timers].
      rewrite <- (movement_repeat_event_player m self h Hid).
      apply (handle_events_keeps_timer_off m now ev (h, timers w)); cbn [fst snd].
      + now apply Hna.
      + now rewrite (movement_repeat_event_player m self h Hid).
    - now rewrite (step_keeps_foreign_timer _ i w now j ev Hne Hu). }
  destruct (IH (step w a) h' Hh' (eq_trans Hid' Hid) Hp Hoff'
              (step_keeps_unshared _ i w a Hu) Hnk Hd) as [Hrun Hall].
  split; [exact Hrun|].
  apply Forall_cons. split; [|exact Hall].
  destruct (snd a) as [j ev|j tg|j tg|j]; auto.
  exact (off_not_delivered m self (timers w) ev Hp Hoff Hda).
Qed.

(** X20. When a living human ship (player id at least 0) handles the
    key-up of a movement key (rotate-left, rotate-right or thrust), the
    period of that key's repeat timer is 0 afterwards.  When no other
    human ship of the world has that event number among its five, then
    in any run from there in which every event is one the host delivers
    and this ship handles no key-down of the key, whatever events the
    other ships handle, the period stays 0 and no event of the run is
    the key's repeat event, so the repeat path of the key is never
    entered. *)
Theorem keyup_cancels_unshared_timer m i w now ev self :
  human_at w i = Some self ->
  alive (entity (base self)) = true ->
  0 <= player_id (base self) ->
  type ev = KEYUP ->
  key ev = Some (movement_key m) ->
  let w1 := step w (now, HandleEvent i ev) in
  period (timers w1) (movement_repeat_event m self) = 0
  /\ (number_unshared (movement_repeat_event m self) i w ->
      forall tr,
        key_stays_up m i tr ->
        deliverable w1 tr ->
        period (timers (run w1 tr)) (movement_repeat_event m self) = 0
        /\ Forall
             (fun a =>
                match snd a with
                | HandleEvent _ ev' => type ev' <> movement_repeat_event m self
                | _ => True
                end) tr).
Proof.
  intros Hh Ha Hp Ht Hk w1.
  assert (Hoff : timers w1 !! movement_repeat_event m self = None).
  { subst w1. rewrite (step_handle_event _ _ _ _ _ Hh). cbn [timers].
    now apply keyup_removes_timer. }
  split; [now apply period_off|].
  intros Hu tr Hnk Hd.
  destruct (step_human w (now, HandleEvent i ev) i self Hh) as (h' & Hh' & Hid' & _).
  destruct (run_keeps_timer_off m i self tr w1 h' Hh' Hid' Hp Hoff
              (step_keeps_unshared _ i w _ Hu) Hnk Hd) as [Hrun Hall].
  split; [now apply period_off|exact Hall].
Qed.

End RepeatTimers.

(** ** The theorems on the concrete game *)

Section Examples.

Import Demo Fleet.
#[local] Existing Instance Demo.conf.
#[local] Existing Instance Demo.libm.
#[local] Existing Instance Demo.collab.

Example turning_reached : run world [(10, HandleEvent 0 (key_down K_a))] = turning.
Proof. vm_compute. reflexivity. Qed.

Example loaded_reached : human_at (run world salvo) 0 = Some loaded.
Proof. vm_compute. reflexivity. Qed.

Lemma collide_blends_velocities_witness :
  store world !! 0%nat = Some (Human player)
  /\ store world !! 1%nat = Some (Ship drifter)
  /\ 1%nat <> 0%nat
  /\ colliderect (rect (sprite_entity (Human player)))
       (rect (sprite_entity (Ship drifter))) = true
  /\ entity_type (sprite_entity (Ship drifter)) = SHIP
  /\ sprite_vel <$> collide 5 0 (store world) 1 !! 0%nat
     = Some ((0 * 0.2 + -2 * 0.75)%float, (0 * 0.2 + 1 * 0.75)%float)
  /\ sprite_vel <$> collide 5 0 (store world) 1 !! 1%nat
     = Some ((-2 * 0.2 + 0 * 0.75)%float, (1 * 0.2 + 0 * 0.75)%float).
Proof.
  assert (H0 : store world !! 0%nat = Some (Human player)) by reflexivity.
  assert (H1 : store world !! 1%nat = Some (Ship drifter)) by reflexivity.
  assert (Hne : 1%nat <> 0%nat) by lia.
  assert (Hc : colliderect (rect (sprite_entity (Human player)))
                 (rect (sprite_entity (Ship drifter))) = true) by reflexivity.
  assert (Ht : entity_type (sprite_entity (Ship drifter)) = SHIP) by reflexivity.
  repeat (split; [assumption|]).
  exact (collide_blends_velocities 5 0%nat 1%nat (store world) (Human player)
           (Ship drifter) H0 H1 Hne Hc Ht).
Defined.


Lemma collide_nudges_only_other_witness :
  store world !! 0%nat = Some (Human player)
  /\ store world !! 1%nat = Some (Ship drifter)
  /\ 1%nat <> 0%nat
  /\ colliderect (rect (sprite_entity (Human player)))
       (rect (sprite_entity (Ship drifter))) = true
  /\ entity_type (sprite_entity (Ship drifter)) = SHIP
  /\ sprite_pos <$> collide 5 0 (store world) 1 !! 1%nat
     = Some ((120 + (-2 * 0.2 + 0 * 0.75))%float, (110 + (1 * 0.2 + 0 * 0.75))%float)
  /\ sprite_pos <$> collide 5 0 (store world) 1 !! 0%nat = Some (100, 100)%float
  /\ forall k, k <> 1%nat ->
       sprite_pos <$> collide 5 0 (store world) 1 !! k
       = sprite_pos <$> store world !! k.
Proof.
  assert (H0 : store world !! 0%nat = Some (Human player)) by reflexivity.
  assert (H1 : store world !! 1%nat = Some (Ship drifter)) by reflexivity.
  assert (Hne : 1%nat <> 0%nat) by lia.
  assert (Hc : colliderect (rect (sprite_entity (Human player)))
                 (rect (sprite_entity (Ship drifter))) = true) by reflexivity.
  assert (Ht : entity_type (sprite_entity (Ship drifter)) = SHIP) by reflexivity.
  repeat (split; [assumption|]).
  exact (collide_nudges_only_other 5 0%nat 1%nat (store world) (Human player)
           (Ship drifter) H0 H1 Hne Hc Ht).
Defined.

Lemma keydown_movement_witness :
  alive (entity (base player)) = true
  /\ 0 <= player_id (base player)
  /\ type (key_down K_s) = KEYDOWN
  /\ key (key_down K_s) = Some K_s
  /\ ship_vel (fst (handle_events 80 (key_down K_s) (player, ∅)))
     = ((0 + cos (0 * PyFloat.pi / 180))%float, (0 + sin (0 * PyFloat.pi / 180))%float)
  /\ ship_ang (fst (handle_events 80 (key_down K_s) (player, ∅))) = 0%float
  /\ snd (handle_events 80 (key_down K_s) (player, ∅))
     = set_timer (USEREVENT + 3) 100 ∅.
Proof.
  assert (Ha : alive (entity (base player)) = true) by reflexivity.
  assert (Hp : 0 <= player_id (base player)) by (vm_compute; discriminate).
  assert (Ht : type (key_down K_s) = KEYDOWN) by reflexivity.
  assert (Hk : key (key_down K_s) = Some K_s) by reflexivity.
  repeat (split; [assumption|]).
  exact (proj2 (proj2 (keydown_movement 80 (key_down K_s) player ∅ Ha Hp Ht)) Hk).
Defined.


Lemma handle_events_dead_is_noop_witness :
  alive (entity (base wreck)) = false
  /\ handle_events 80 (key_down K_s) (wreck, ∅) = (wreck, ∅).
Proof.
  split; [reflexivity|].
  apply (handle_events_dead_is_noop 80 (key_down K_s) wreck ∅). reflexivity.
Defined.

Lemma torpedo_cap_suppresses_fire_witness :
  0 <= player_id (base loaded)
  /\ MAX_TORPEDOES_PER_SHIP <= torpedo_count (base loaded)
  /\ type (key_down K_e) = KEYDOWN
  /\ key (key_down K_e) = Some K_e
  /\ fst (handle_events 1500 (key_down K_e) (loaded, ∅)) = loaded
  /\ (alive (entity (base loaded)) = true ->
      snd (handle_events 1500 (key_down K_e) (loaded, ∅))
      = set_timer (fire_torpedoes_repeat_event loaded) TORPEDO_FIRE_CD ∅)
  /\ type (timer_event (USEREVENT + 4)) = fire_torpedoes_repeat_event loaded
  /\ handle_events 1500 (timer_event (USEREVENT + 4)) (loaded, ∅) = (loaded, ∅).
Proof.
  assert (Hr : type (timer_event (USEREVENT + 4)) = fire_torpedoes_repeat_event loaded)
    by reflexivity.
  assert (Hp : 0 <= player_id (base loaded)) by (vm_compute; discriminate).
  assert (Hm : MAX_TORPEDOES_PER_SHIP <= torpedo_count (base loaded))
    by (vm_compute; discriminate).
  assert (Ht : type (key_down K_e) = KEYDOWN) by reflexivity.
  assert (Hk : key (key_down K_e) = Some K_e) by reflexivity.
  repeat (split; [assumption|]).
  destruct (proj1 (torpedo_cap_suppresses_fire 1500 (key_down K_e) loaded ∅ Hp Hm)
              Ht Hk) as [Hship Htimers].
  split; [exact Hship|].
  split; [exact Htimers|].
  split; [exact Hr|].
  exact (proj2 (torpedo_cap_suppresses_fire 1500 (timer_event (USEREVENT + 4))
                  loaded ∅ Hp Hm) Hr).
Defined.


Lemma world_ships (P : BaseShip -> Prop) :
  P (base player) -> P drifter -> every_ship P world.
Proof.
  intros Hpl Hdr i s b Hs Hb. unfold world in Hs. cbn [store] in Hs.
  apply lookup_insert_Some in Hs. destruct Hs as [[_ <-]|[_ Hs]].
  - injection Hb as <-. exact Hdr.
  - apply lookup_singleton_Some in Hs. destruct Hs as [_ <-].
    injection Hb as <-. exact Hpl.
Qed.

Lemma torpedo_count_never_exceeds_cap_witness :
  every_ship (fun b => torpedo_count b <= MAX_TORPEDOES_PER_SHIP) world
  /\ every_ship (fun b => torpedo_count b <= MAX_TORPEDOES_PER_SHIP)
       (run world (salvo ++ salvo))
  /\ (length (torpedo_group (base player))
      < length (torpedo_group
                  (base (fst (handle_events 1000 (key_down K_e) (player, ∅))))))%nat
  /\ torpedo_count (base player) < MAX_TORPEDOES_PER_SHIP.
Proof.
  assert (H : every_ship (fun b => torpedo_count b <= MAX_TORPEDOES_PER_SHIP) world)
    by (apply world_ships; vm_compute; discriminate).
  assert (Hg : (length (torpedo_group (base player))
                < length (torpedo_group
                            (base (fst (handle_events 1000 (key_down K_e)
                                          (player, ∅))))))%nat)
    by (vm_compute; lia).
  split; [exact H|].
  split; [exact (proj1 (torpedo_count_never_exceeds_cap world (salvo ++ salvo)) H)|].
  split; [exact Hg|].
  exact (proj2 (torpedo_count_never_exceeds_cap world (salvo ++ salvo))
           1000 (key_down K_e) (player, ∅) Hg).
Defined.

Lemma phaser_group_holds_one_beam_witness :
  every_ship (fun b => (length (phaser_group b) <= 1)%nat) world
  /\ every_ship (fun b => (length (phaser_group b) <= 1)%nat) (run world held_phaser)
  /\ 0 <= player_id (base player)
  /\ fires_on PhaserWeapon 100 (key_down K_q) player = true
  /\ phaser_group (base (fst (handle_events 100 (key_down K_q) (player, ∅))))
     = [mkPhaser 0 (100, 100)%float (0, 0)%float 0%float]
  /\ phaser (base (fst (handle_events 100 (key_down K_q) (player, ∅))))
     = Some (mkPhaser 0 (100, 100)%float (0, 0)%float 0%float).
Proof.
  assert (H : every_ship (fun b => (length (phaser_group b) <= 1)%nat) world)
    by (apply world_ships; cbn; lia).
  assert (Hp : 0 <= player_id (base player)) by (vm_compute; discriminate).
  assert (Hf : fires_on PhaserWeapon 100 (key_down K_q) player = true)
    by reflexivity.
  split; [exact H|].
  split; [exact (proj1 (phaser_group_holds_one_beam world held_phaser) H)|].
  split; [exact Hp|].
  split; [exact Hf|].
  exact (proj2 (phaser_group_holds_one_beam world held_phaser)
           100 (key_down K_q) player ∅ Hp Hf).
Defined.




(** C4 fails when two human ships have adjacent player ids.  The ships
    of players 0 and 1 are in one game and each event goes to both.  The
    thrust key is pressed and released: the period of player 0's thrust
    repeat timer is 0.  Then the rotate-right key is pressed: player 1's
    rotate-right repeat event has the number of player 0's thrust repeat
    event, so the period of that timer is the movement delay again,
    though player 0 has handled no key-down of the thrust key.  The
    timer's event is then delivered and player 0's ship thrusts: its
    velocity goes from (1, 0) to (1 + cos 22.5 deg, sin 22.5 deg). *)
Lemma shared_event_number_restarts_thrust :
  let w1 := run duel thrust_tapped in
  let w2 := run w1 right_pressed in
  let w3 := run w2 shared_repeat in
  acc_repeat_event player = rotate_cw_repeat_event rival
  /\ deliverable duel (thrust_tapped ++ right_pressed ++ shared_repeat)
  /\ key_stays_up Thrust 0 (right_pressed ++ shared_repeat)
  /\ period (timers w1) (acc_repeat_event player) = 0
  /\ period (timers w2) (acc_repeat_event player) = MOVEMENT_TIME_DELAY_MS
  /\ ~ number_unshared (acc_repeat_event player) 0 w1
  /\ ship_vel <$> human_at w2 0 = Some (1, 0)%float
  /\ ship_vel <$> human_at w3 0
     = Some ((1 + cos (22.5 * PyFloat.pi / 180))%float,
             (0 + sin (22.5 * PyFloat.pi / 180))%float)
  /\ PrimFloat.ltb 1 (1 + cos (22.5 * PyFloat.pi / 180)) = true.
Proof.
  intros w1 w2 w3.
  split; [reflexivity|].
  split; [vm_compute; repeat split|].
  split; [repeat constructor|].
  split; [vm_compute; reflexivity|].
  split; [vm_compute; reflexivity|].
  split.
  { intros H.
    destruct (human_at w1 1) as [h|] eqn:Hh; [|vm_compute in Hh; discriminate].
    apply (H 1%nat h); [discriminate|exact Hh|].
    assert (Hid : player_id (base h) = 1).
    { vm_compute in Hh. injection Hh as <-. reflexivity. }
    unfold repeat_events, rotate_cw_repeat_event. rewrite Hid.
    right. left. reflexivity. }
  split; [vm_compute; reflexivity|].
  split; vm_compute; reflexivity.
Qed.

End Examples.

(** ** Cooldown windows *)

Section Cooldown.

Context {conf : Conf} {libm : Libm} {collab : Collaborators}.

(** X1. A weapon is on cooldown exactly when it has a last-fired tick
    other than 0 and at most the cooldown constant has passed since; so a
    cooldown that has run out stays run out as the tick counter advances,
    and a last-fired tick of 0 counts as never fired. *)
Theorem cooldown_window wp now b :
  (check_on_cooldown wp now b = true <->
   exists last, last_fired wp b = Some last /\ last <> 0 /\ now <= last + cooldown wp)
  /\ (forall later, now <= later ->
        check_on_cooldown wp now b = false -> check_on_cooldown wp later b = false)
  /\ (last_fired wp b = Some 0 -> check_on_cooldown wp now b = false).
Proof.
  assert (Hiff : forall t,
             check_on_cooldown wp t b = true <->
             exists last,
               last_fired wp b = Some last /\ last <> 0 /\ t <= last + cooldown wp).
  { intros t.
    destruct wp; cbn [check_on_cooldown last_fired cooldown];
      unfold check_phaser_on_cooldown, check_torpedo_on_cooldown.
    - destruct (phaser_last_fired b) as [last|].
      + destruct (Z.eqb_spec last 0) as [->|Hne].
        * split; [discriminate|]. intros (l & Hl & Hn & _). congruence.
        * destruct (Z.gtb_spec (t - last) PHASER_FIRE_CD).
          -- split; [discriminate|]. intros (l & Hl & _ & Hle).
             injection Hl as <-. lia.
          -- split; [|reflexivity]. intros _. exists last. repeat split; auto. lia.
      + split; [discriminate|]. intros (l & Hl & _). discriminate.
    - destruct (torpedo_last_fired b) as [last|].
      + destruct (Z.eqb_spec last 0) as [->|Hne].
        * split; [discriminate|]. intros (l & Hl & Hn & _). congruence.
        * destruct (Z.gtb_spec (t - last) TORPEDO_FIRE_CD).
          -- split; [discriminate|]. intros (l & Hl & _ & Hle).
             injection Hl as <-. lia.
          -- split; [|reflexivity]. intros _. exists last. repeat split; auto. lia.
      + split; [discriminate|]. intros (l & Hl & _). discriminate. }
  split; [apply Hiff|]. split.
  - intros later Hle Hoff.
    destruct (check_on_cooldown wp later b) eqn:Hon; [|reflexivity].
    apply Hiff in Hon. destruct Hon as (last & Hl & Hn & Hlate).
    assert (check_on_cooldown wp now b = true); [|congruence].
    apply Hiff. exists last. repeat split; auto. lia.
  - intros H0.
    destruct (check_on_cooldown wp now b) eqn:Hon; [|reflexivity].
    apply Hiff in Hon. destruct Hon as (last & Hl & Hn & _). congruence.
Qed.

End Cooldown.

(** ** Event numbers *)

Section EventNumbers.

(** X2. The five repeat events of a ship have five different numbers, all
    of them above [USEREVENT] and so different from [KEYDOWN] and [KEYUP]
    when the player id is at least 0.  Two ships share an event number
    exactly when their player ids differ by at most 4: players 0 and 1
    already do. *)
Theorem repeat_event_numbers h h' :
  NoDup (repeat_events h)
  /\ (0 <= player_id (base h) ->
      Forall (fun n => USEREVENT < n /\ n <> KEYDOWN /\ n <> KEYUP) (repeat_events h))
  /\ ((exists n, In n (repeat_events h) /\ In n (repeat_events h')) <->
      -4 <= player_id (base h) - player_id (base h') <= 4).
Proof.
  unfold repeat_events. unfold_codes.
  set (p := player_id (base h)). set (q := player_id (base h')).
  split; [|split].
  - repeat (apply NoDup_cons; split;
            [rewrite !list_elem_of_In; cbn [In]; lia|]).
    apply NoDup_nil. exact I.
  - intros Hp. repeat (apply Forall_cons; split; [lia|]). apply Forall_nil. exact I.
  - split.
    + intros (n & Hn & Hn'). cbn [In] in Hn, Hn'. lia.
    + intros Hd.
      destruct (Z_le_gt_dec p q).
      * exists (32866 + p + (q - p + 1)). cbn [In].
        split; [|left; lia].
        assert (q - p = 0 \/ q - p = 1 \/ q - p = 2 \/ q - p = 3 \/ q - p = 4) by lia.
        lia.
      * exists (32866 + q + (p - q + 1)). cbn [In].
        split; [left; lia|].
        assert (p - q = 1 \/ p - q = 2 \/ p - q = 3 \/ p - q = 4) by lia.
        lia.
Qed.

End EventNumbers.

(** ** More on the event handlers *)

Section MoreHandlers.

Context {conf : Conf} {libm : Libm} {collab : Collaborators}.

(** X3. Whatever the event, [handle_events] leaves the ship's position,
    rectangle, entity type, liveness, player id and last collision tick as
    they were: the handlers assign only the angle, the velocity, the lock
    flag, the projectile groups and the last-fired ticks. *)
Theorem handle_events_frame now ev st :
  let self := fst st in
  let self' := fst (handle_events now ev st) in
  ship_pos self' = ship_pos self
  /\ rect (entity (base self')) = rect (entity (base self))
  /\ entity_type (entity (base self')) = entity_type (entity (base self))
  /\ alive (entity (base self')) = alive (entity (base self))
  /\ player_id (base self') = player_id (base self)
  /\ last_collided_ship (base self') = last_collided_ship (base self).
Proof.
  intros self self'. subst self self'.
  set (h := fst st).
  assert (H : (fun st' =>
                 ship_pos (fst st') = ship_pos h
                 /\ rect (entity (base (fst st'))) = rect (entity (base h))
                 /\ entity_type (entity (base (fst st'))) = entity_type (entity (base h))
                 /\ alive (entity (base (fst st'))) = alive (entity (base h))
                 /\ player_id (base (fst st')) = player_id (base h)
                 /\ last_collided_ship (base (fst st')) = last_collided_ship (base h))
                (handle_events now ev st)).
  { apply keeps_handle_events; [| |subst h; repeat split].
    - unfold _handle_movement_events. walk; at_leaf; auto 10.
    - unfold _handle_firing_weapon_events. walk; at_leaf; auto 10. }
  exact H.
Qed.

(** X4. An event that is neither a key-down, nor a key-up, nor one of the
    ship's five repeat events changes nothing; nor does, for a ship with a
    player id of at least 0, the key-down or key-up of a key other than
    a, d, s, q and e. *)
Theorem other_events_are_ignored now ev self tm :
  (type ev <> KEYDOWN -> type ev <> KEYUP -> ~ In (type ev) (repeat_events self) ->
   handle_events now ev (self, tm) = (self, tm))
  /\ (0 <= player_id (base self) ->
      type ev = KEYDOWN \/ type ev = KEYUP ->
      Forall (fun k => key_is ev k = false) ship_keys ->
      handle_events now ev (self, tm) = (self, tm)).
Proof.
  split.
  - intros Hd Hu Hr.
    destruct (alive (entity (base self))) eqn:Ha;
      [|now apply handle_events_dead].
    rewrite handle_events_alive by assumption.
    unfold _handle_firing_weapon_events, _handle_movement_events.
    unfold repeat_events in Hr. cbn [In] in Hr.
    unfold_codes; settle_eqb; run_stmts; reflexivity.
  - intros Hp Ht Hk. unfold ship_keys in Hk.
    repeat match goal with
      | H : Forall _ (_ :: _) |- _ => apply Forall_cons in H; destruct H
      end.
    destruct (alive (entity (base self))) eqn:Ha;
      [|now apply handle_events_dead].
    rewrite handle_events_alive by assumption.
    unfold _handle_firing_weapon_events, _handle_movement_events.
    repeat match goal with
      | H : key_is _ _ = false |- _ => rewrite H; clear H
      end.
    destruct Ht as [Ht|Ht]; rewrite Ht; unfold_codes; settle_eqb; run_stmts;
      reflexivity.
Qed.

End MoreHandlers.

Section WeaponKeys.

Context {conf : Conf} {libm : Libm} {collab : Collaborators}.

(** X5. When a living human ship (player id at least 0) handles the
    key-up of a weapon key, the repeat timer of that weapon is removed
    (its period is 0 afterwards) and the ship is left as it was: a key-up
    never fires. *)
Theorem weapon_keyup_cancels_timer wp now ev self tm :
  alive (entity (base self)) = true ->
  0 <= player_id (base self) ->
  type ev = KEYUP ->
  key ev = Some (weapon_key wp) ->
  handle_events now ev (self, tm)
  = (self, set_timer (weapon_repeat_event wp self) 0 tm)
  /\ period (snd (handle_events now ev (self, tm))) (weapon_repeat_event wp self) = 0.
Proof.
  intros Ha Hp Ht Hk.
  assert (H : handle_events now ev (self, tm)
              = (self, set_timer (weapon_repeat_event wp self) 0 tm)).
  { rewrite handle_events_alive by assumption.
    unfold _handle_firing_weapon_events, _handle_movement_events.
    rewrite Ht, !(key_is_Some _ _ _ Hk).
    destruct wp; cbn [weapon_key weapon_repeat_event];
      unfold_codes; settle_eqb; run_stmts; reflexivity. }
  split; [exact H|]. rewrite H. cbn [snd].
  apply period_off, set_timer_zero.
Qed.

(** X6. When a living human ship (player id at least 0) handles the
    key-down of a weapon key while that weapon is on cooldown, nothing is
    fired and the ship is left as it was, but the weapon's repeat timer is
    set anew to the cooldown constant. *)
Theorem keydown_on_cooldown_restarts_timer wp now ev self tm :
  alive (entity (base self)) = true ->
  0 <= player_id (base self) ->
  type ev = KEYDOWN ->
  key ev = Some (weapon_key wp) ->
  check_on_cooldown wp now (base self) = true ->
  handle_events now ev (self, tm)
  = (self, set_timer (weapon_repeat_event wp self) (cooldown wp) tm).
Proof.
  intros Ha Hp Ht Hk Hcd.
  rewrite handle_events_alive by assumption.
  unfold _handle_firing_weapon_events, _handle_movement_events.
  rewrite Ht, !(key_is_Some _ _ _ Hk).
  destruct wp; cbn [weapon_key weapon_repeat_event cooldown check_on_cooldown] in *;
    unfold_codes; settle_eqb; run_stmts; rewrite Hcd;
    cbn [negb andb]; rewrite ?andb_false_r; run_stmts; reflexivity.
Qed.

(** X7. When a human ship (player id at least 0) fires a torpedo, on the
    key-down path or on the repeat path, one torpedo carrying the ship's
    position, angle and velocity is added behind the torpedoes in flight,
    the torpedo last-fired tick becomes the current tick, and the rest of
    the ship (hull, lock flag, phaser group, phaser last-fired tick) is
    left as it was. *)
Theorem torpedo_fire_appends_one now ev self tm :
  0 <= player_id (base self) ->
  fires_on TorpedoWeapon now ev self = true ->
  let self' := fst (handle_events now ev (self, tm)) in
  torpedo_group (base self')
  = torpedo_group (base self)
      ++ [mkPhotonTorpedo (ship_pos self) (ship_ang self) (ship_vel self)]
  /\ torpedo_last_fired (base self') = Some now
  /\ entity (base self') = entity (base self)
  /\ rotate_ccw_lock self' = rotate_ccw_lock self
  /\ weapon_state PhaserWeapon (base self') = weapon_state PhaserWeapon (base self).
Proof.
  intros Hp Hf self'. subst self'.
  rewrite (fires_runs_fire TorpedoWeapon now ev self tm Hp Hf).
  repeat split.
Qed.

(** X8. Handling an event never removes or reorders torpedoes, and for a
    ship with a player id of at least 0 it adds at most one: the torpedo
    group after the event is the group before it, followed by at most one
    new torpedo. *)
Theorem handle_events_adds_at_most_one_torpedo now ev self tm :
  0 <= player_id (base self) ->
  exists new,
    torpedo_group (base (fst (handle_events now ev (self, tm))))
    = torpedo_group (base self) ++ new
    /\ (length new <= 1)%nat.
Proof.
  intros Hp. destruct (fires_on TorpedoWeapon now ev self) eqn:Hf.
  - rewrite (fires_runs_fire TorpedoWeapon now ev self tm Hp Hf).
    eexists. split; [reflexivity|]. cbn [length]. lia.
  - pose proof (no_fire_keeps_weapon TorpedoWeapon now ev self tm Hf) as H.
    unfold weapon_state in H. injection H as _ H.
    exists []. rewrite H, app_nil_r. split; [reflexivity|]. cbn [length]. lia.
Qed.

End WeaponKeys.

Section MovementRepeats.

Context {conf : Conf} {libm : Libm} {collab : Collaborators}.

(** X9. When a living human ship (player id at least 0) handles its
    thrust repeat event, the velocity gains (cos(ang*pi/180),
    sin(ang*pi/180)) as on the key-down, and the angle, the lock flag and
    the timers are left as they were. *)
Theorem thrust_repeat_accelerates now ev self tm :
  alive (entity (base self)) = true ->
  0 <= player_id (base self) ->
  type ev = acc_repeat_event self ->
  let st' := handle_events now ev (self, tm) in
  ship_vel (fst st')
  = ((fst (ship_vel self) + cos (ship_ang self * PyFloat.pi / 180))%float,
     (snd (ship_vel self) + sin (ship_ang self * PyFloat.pi / 180))%float)
  /\ ship_ang (fst st') = ship_ang self
  /\ rotate_ccw_lock (fst st') = rotate_ccw_lock self
  /\ snd st' = tm.
Proof.
  intros Ha Hp Ht st'. subst st'. rewrite handle_events_alive by assumption.
  unfold _handle_firing_weapon_events, _handle_movement_events.
  rewrite Ht. unfold_codes; settle_eqb; run_stmts; read_attributes; auto.
Qed.

(** X10. Releasing one rotate key hands the rotation to the other: for a
    living human ship (player id at least 0), the key-up of rotate-right
    sets the lock flag, so that the next rotate-left repeat event
    subtracts 22.5 from the angle (modulo 360), and the key-up of
    rotate-left clears it, so that the next rotate-right repeat event adds
    22.5 (modulo 360).  The key-up itself changes neither angle nor
    velocity. *)
Theorem keyup_hands_rotation_over now ev now' ev' self tm :
  alive (entity (base self)) = true ->
  0 <= player_id (base self) ->
  type ev = KEYUP ->
  let st1 := handle_events now ev (self, tm) in
  let st2 := handle_events now' ev' st1 in
  (key ev = Some K_d ->
     rotate_ccw_lock (fst st1) = true
     /\ ship_ang (fst st1) = ship_ang self
     /\ ship_vel (fst st1) = ship_vel self
     /\ (type ev' = rotate_cc_repeat_event self ->
         ship_ang (fst st2) = PyFloat.float_rem (ship_ang self - 22.5) 360))
  /\ (key ev = Some K_a ->
     rotate_ccw_lock (fst st1) = false
     /\ ship_ang (fst st1) = ship_ang self
     /\ ship_vel (fst st1) = ship_vel self
     /\ (type ev' = rotate_cw_repeat_event self ->
         ship_ang (fst st2) = PyFloat.float_rem (ship_ang self + 22.5) 360)).
Proof.
  intros Ha Hp Ht st1 st2. subst st2 st1.
  split; intros Hk.
  - assert (H1 : handle_events now ev (self, tm)
                 = (set_rotate_ccw_lock true self,
                    set_timer (rotate_cw_repeat_event self) 0 tm)).
    { rewrite handle_events_alive by assumption.
      unfold _handle_firing_weapon_events, _handle_movement_events.
      rewrite Ht, !(key_is_Some _ _ _ Hk).
      unfold_codes; settle_eqb; run_stmts; reflexivity. }
    rewrite H1. cbn [fst]. repeat (split; [reflexivity|]).
    intros Ht'. rewrite handle_events_alive by assumption.
    unfold _handle_firing_weapon_events, _handle_movement_events.
    rewrite Ht'. unfold_codes; settle_eqb; run_stmts; read_attributes. reflexivity.
  - assert (H1 : handle_events now ev (self, tm)
                 = (set_rotate_ccw_lock false self,
                    set_timer (rotate_cc_repeat_event self) 0 tm)).
    { rewrite handle_events_alive by assumption.
      unfold _handle_firing_weapon_events, _handle_movement_events.
      rewrite Ht, !(key_is_Some _ _ _ Hk).
      unfold_codes; settle_eqb; run_stmts; reflexivity. }
    rewrite H1. cbn [fst]. repeat (split; [reflexivity|]).
    intros Ht'. rewrite handle_events_alive by assumption.
    unfold _handle_firing_weapon_events, _handle_movement_events.
    rewrite Ht'. unfold_codes; settle_eqb; run_stmts; read_attributes. reflexivity.
Qed.

End MovementRepeats.

Section TimersStay.

Context {conf : Conf} {libm : Libm} {collab : Collaborators}.

Lemma set_timer_on event millis (tm : gmap Z Z) id :
  is_Some (tm !! id) ->
  (event = id -> 0 < millis) ->
  is_Some (set_timer event millis tm !! id).
Proof.
  intros Hon Hpos. unfold set_timer.
  destruct (decide (event = id)) as [->|Hne].
  - destruct (Z.leb_spec millis 0); [specialize (Hpos eq_refl); lia|].
    rewrite lookup_insert_eq. eauto.
  - destruct (millis <=? 0).
    + now rewrite lookup_delete_ne.
    + now rewrite lookup_insert_ne.
Qed.

(** X11. While a movement key is held its repeat timer stays set: if the
    movement delay is positive and the timer of a movement key is set,
    then after any event other than the key-up of that key it is still
    set. *)
Theorem repeat_timer_stays_set m now ev st :
  0 < MOVEMENT_TIME_DELAY_MS ->
  is_key ev KEYUP (movement_key m) = false ->
  is_Some (snd st !! movement_repeat_event m (fst st)) ->
  is_Some (snd (handle_events now ev st) !! movement_repeat_event m (fst st)).
Proof.
  intros Hpos Hnk Hon.
  set (p := player_id (base (fst st))).
  assert (H : (fun st' =>
                 player_id (base (fst st')) = p
                 /\ is_Some (snd st' !! movement_repeat_event m (fst st)))
                (handle_events now ev st)).
  { apply keeps_handle_events; [| |auto].
    - unfold _handle_movement_events. walk; at_leaf; auto.
      all: split; [assumption|].
      all: apply set_timer_on; [assumption|intros ?; try assumption].
      all: exfalso.
      all: destruct m; unfold movement_repeat_event, movement_key in *; subst p.
      all: unfold_codes; try lia.
      all: unfold is_key in Hnk; unfold_codes.
      all: repeat match goal with
             | E : ?c = true, H : context [?c] |- _ =>
                 lazymatch type of H with
                 | _ = true => fail
                 | _ => rewrite E in H
                 end
             end; cbn [andb] in Hnk; discriminate.
    - unfold _handle_firing_weapon_events. walk; at_leaf; auto.
      all: split; [assumption|].
      all: apply set_timer_on; [assumption|intros ?].
      all: exfalso.
      all: destruct m; unfold movement_repeat_event in *; subst p.
      all: unfold_codes; lia. }
  apply H.
Qed.

End TimersStay.

(** ** More on [BaseShip.update] *)

Section MoreCollisions.

Context {conf : Conf} {libm : Libm} {collab : Collaborators}.

Lemma collide_miss now self (st : gmap nat Sprite) j :
  hits self st j = false -> collide now self st j = st.
Proof.
  unfold hits, collide.
  destruct (st !! self) as [me|]; [|reflexivity].
  destruct (st !! j) as [sprite|]; [|reflexivity].
  now intros ->.
Qed.

Lemma hits_inv self (st : gmap nat Sprite) j :
  hits self st j = true ->
  exists me sprite,
    st !! self = Some me /\ st !! j = Some sprite /\ j <> self
    /\ colliderect (rect (sprite_entity me)) (rect (sprite_entity sprite)) = true
    /\ entity_type (sprite_entity sprite) = SHIP.
Proof.
  unfold hits.
  destruct (st !! self) as [me|]; [|discriminate].
  destruct (st !! j) as [sprite|]; [|discriminate].
  intros H. apply andb_prop in H. destruct H as [H Hty].
  apply andb_prop in H. destruct H as [Hne Hcol].
  exists me, sprite. repeat split; auto.
  - apply negb_true_iff, Nat.eqb_neq in Hne. exact Hne.
  - destruct (entity_type (sprite_entity sprite)); try discriminate; reflexivity.
Qed.

Lemma sprite_hull_set_vel v s : sprite_hull (sprite_with_entity (set_vel v) s) = sprite_hull s.
Proof. destruct s; reflexivity. Qed.

Lemma sprite_hull_last_collided t s :
  sprite_hull (sprite_with_ship (set_last_collided_ship t) s) = sprite_hull s.
Proof. destruct s; reflexivity. Qed.

Lemma sprite_hull_set_pos (f : SpaceEntity -> Vec) s :
  sprite_hull (sprite_with_entity (fun e => set_pos (f e) e) s) = sprite_hull s.
Proof. destruct s; reflexivity. Qed.

(** One turn of the loop changes no hull. *)
Lemma collide_hull now self (st : gmap nat Sprite) j k :
  sprite_hull <$> collide now self st j !! k = sprite_hull <$> st !! k.
Proof.
  destruct (hits self st j) eqn:Hh; [|now rewrite collide_miss].
  destruct (hits_inv _ _ _ Hh) as (me & sprite & Hme & Hsp & Hne & Hcol & Hty).
  rewrite (collide_hit now self j st me sprite Hme Hsp Hne Hcol Hty).
  rewrite lookup_insert. case_decide as Hj.
  - subst k. rewrite Hsp. cbn [fmap option_fmap option_map]. f_equal.
    destruct (check_overlapping_sprites _ _) as [[] []]; cbn [fst snd];
      rewrite ?sprite_hull_set_pos, sprite_hull_set_vel; reflexivity.
  - rewrite lookup_insert. case_decide as Hs; [|reflexivity].
    subst k. rewrite Hme. cbn [fmap option_fmap option_map]. f_equal.
    now rewrite sprite_hull_last_collided, sprite_hull_set_vel.
Qed.

(** So the test of the loop gives the same answer after a turn as before. *)
Lemma hits_collide now self (st : gmap nat Sprite) j j' :
  hits self (collide now self st j) j' = hits self st j'.
Proof.
  pose proof (collide_hull now self st j self) as Hs.
  pose proof (collide_hull now self st j j') as Hj.
  unfold hits.
  destruct (collide now self st j !! self) as [me'|], (st !! self) as [me|];
    try discriminate; [|reflexivity].
  destruct (collide now self st j !! j') as [sp'|], (st !! j') as [sp|];
    try discriminate; [|reflexivity].
  cbn [fmap option_fmap option_map] in Hs, Hj.
  apply (inj Some) in Hs, Hj. unfold sprite_hull in Hs, Hj.
  injection Hs as _ _ Hr _. injection Hj as Ht _ Hr' _.
  now rewrite Hr, Hr', Ht.
Qed.

(** X12. When, once the entity's own update has run, no sprite of the
    target group passes the test of the loop (another sprite, a ship,
    with a rectangle colliding with that of [self]), [BaseShip.update]
    does nothing more than the entity's own update: no velocity, position
    or collision tick changes.  A ship that is in its own target group is
    not taken for a collision with itself. *)
Theorem update_without_collision now self target_group (st : gmap nat Sprite) :
  let st1 := alter (sprite_with_entity SpaceEntity_update) self st in
  (forall j, In j target_group -> hits self st1 j = false) ->
  update now self target_group st = st1
  /\ hits self st1 self = false.
Proof.
  intros st1 Hmiss. split.
  - unfold update. fold st1. clearbody st1.
    induction target_group as [|j l IH]; [reflexivity|].
    cbn [foldl]. rewrite collide_miss by (apply Hmiss; left; reflexivity).
    apply IH. intros j' Hj'. apply Hmiss. right. exact Hj'.
  - unfold hits. destruct (st1 !! self); [|reflexivity].
    now rewrite Nat.eqb_refl.
Qed.

Lemma foldl_collide_hull now self l :
  forall (st : gmap nat Sprite) k,
    sprite_hull <$> foldl (collide now self) st l !! k = sprite_hull <$> st !! k.
Proof.
  induction l as [|j l IH]; intros st k; [reflexivity|].
  cbn [foldl]. rewrite IH. apply collide_hull.
Qed.

(** X13. [BaseShip.update] adds and removes no sprite, changes the kind,
    the player id, the projectile groups and the last-fired ticks of no
    sprite, and changes the entity type, angle, rectangle and liveness of
    no sprite but [self] (whose entity has its own update run). *)
Theorem update_frame now self target_group (st : gmap nat Sprite) k :
  (is_Some (update now self target_group st !! k) <-> is_Some (st !! k))
  /\ sprite_arms <$> update now self target_group st !! k = sprite_arms <$> st !! k
  /\ (k <> self ->
      sprite_hull <$> update now self target_group st !! k = sprite_hull <$> st !! k).
Proof.
  pose proof (update_arms now self target_group st k) as Ha.
  split; [|split].
  - rewrite <- !(fmap_is_Some sprite_arms). now rewrite Ha.
  - exact Ha.
  - intros Hk. unfold update. rewrite foldl_collide_hull.
    now rewrite lookup_alter_ne.
Qed.

End MoreCollisions.

Section CollisionTick.

Context {conf : Conf} {libm : Libm} {collab : Collaborators}.

Lemma last_collided_with_entity f s :
  sprite_last_collided (sprite_with_entity f s) = sprite_last_collided s.
Proof. destruct s; reflexivity. Qed.

Lemma last_collided_is_ship s t : sprite_last_collided s = Some t -> is_Some (sprite_ship s).
Proof. unfold sprite_last_collided. destruct (sprite_ship s); [eauto|discriminate]. Qed.

Lemma collide_tick_hit now self (st : gmap nat Sprite) j :
  hits self st j = true ->
  is_Some (st !! self ≫= sprite_ship) ->
  collide now self st j !! self ≫= sprite_last_collided = Some now.
Proof.
  intros Hh Hship.
  destruct (hits_inv _ _ _ Hh) as (me & sprite & Hme & Hsp & Hne & Hcol & Hty).
  rewrite (collide_hit now self j st me sprite Hme Hsp Hne Hcol Hty).
  rewrite lookup_insert_ne by assumption. rewrite lookup_insert_eq.
  rewrite Hme in Hship. destruct Hship as [b Hb].
  destruct me as [e|b'|h]; [discriminate| |]; reflexivity.
Qed.

Lemma collide_tick_stable now self (st : gmap nat Sprite) j :
  st !! self ≫= sprite_last_collided = Some now ->
  collide now self st j !! self ≫= sprite_last_collided = Some now.
Proof.
  intros H. destruct (hits self st j) eqn:Hh; [|now rewrite collide_miss].
  apply collide_tick_hit; [assumption|].
  destruct (st !! self) as [s|]; [|discriminate].
  cbn in *. eapply last_collided_is_ship; eauto.
Qed.

Lemma collide_tick_other now self (st : gmap nat Sprite) j k :
  k <> self ->
  collide now self st j !! k ≫= sprite_last_collided = st !! k ≫= sprite_last_collided.
Proof.
  intros Hk. destruct (hits self st j) eqn:Hh; [|now rewrite collide_miss].
  destruct (hits_inv _ _ _ Hh) as (me & sprite & Hme & Hsp & Hne & Hcol & Hty).
  rewrite (collide_hit now self j st me sprite Hme Hsp Hne Hcol Hty).
  rewrite lookup_insert. case_decide as Hj.
  - subst k. rewrite Hsp. cbn [mbind option_bind].
    destruct (check_overlapping_sprites _ _) as [[] []]; cbn [fst snd];
      now rewrite !last_collided_with_entity.
  - now rewrite lookup_insert_ne by auto.
Qed.

Lemma collide_keeps_ship now self (st : gmap nat Sprite) j :
  is_Some (st !! self ≫= sprite_ship) ->
  is_Some (collide now self st j !! self ≫= sprite_ship).
Proof.
  intros [b Hb]. pose proof (collide_arms now self st j self) as Ha.
  destruct (st !! self) as [s|]; [|discriminate].
  destruct (collide now self st j !! self) as [s'|]; [|discriminate].
  cbn [fmap option_fmap option_map] in Ha. apply (inj Some) in Ha.
  unfold sprite_arms in Ha. injection Ha as _ Ha. cbn in Hb |- *.
  rewrite Hb in Ha. destruct (sprite_ship s'); [eauto|discriminate].
Qed.

(** X14. Only the ship that runs [update] has the collision recorded: when
    some sprite of the target group passes the test of the loop (read
    after the entity's own update; no turn of the loop changes its
    answer), the [last_collided_ship] of [self] is the current tick after
    the update, and the [last_collided_ship] of every other sprite, the
    ships hit included, is what it was. *)
Theorem update_records_collision_tick now self target_group (st : gmap nat Sprite) :
  is_Some (st !! self ≫= sprite_ship) ->
  let st1 := alter (sprite_with_entity SpaceEntity_update) self st in
  let st2 := update now self target_group st in
  ((exists j, In j target_group /\ hits self st1 j = true) ->
   st2 !! self ≫= sprite_last_collided = Some now)
  /\ (forall k, k <> self ->
        st2 !! k ≫= sprite_last_collided = st !! k ≫= sprite_last_collided)
  /\ (forall st' j j', hits self (collide now self st' j) j' = hits self st' j').
Proof.
  intros Hship st1 st2. subst st2. unfold update. fold st1.
  assert (Hship1 : is_Some (st1 !! self ≫= sprite_ship)).
  { subst st1. rewrite lookup_alter_eq.
    destruct (st !! self) as [s|]; [|destruct Hship; discriminate].
    cbn in *. destruct s; cbn in *; auto. }
  split; [|split].
  - clearbody st1. clear Hship st.
    intros (j0 & Hin & Hhit). revert st1 Hship1 Hhit.
    induction target_group as [|j l IH]; intros st1 Hship1 Hhit; [destruct Hin|].
    cbn [foldl]. destruct (hits self st1 j) eqn:Hj.
    + assert (Hnow : collide now self st1 j !! self ≫= sprite_last_collided = Some now)
        by now apply collide_tick_hit.
      clear IH Hin. revert Hnow. generalize (collide now self st1 j).
      induction l as [|j' l IHl]; intros st' Hnow; [exact Hnow|].
      cbn [foldl]. apply IHl. now apply collide_tick_stable.
    + destruct Hin as [->|Hin]; [congruence|].
      apply IH; [assumption|now apply collide_keeps_ship|].
      now rewrite hits_collide.
  - intros k Hk.
    transitivity (st1 !! k ≫= sprite_last_collided).
    + generalize st1. induction target_group as [|j l IH]; intros st'; [reflexivity|].
      cbn [foldl]. rewrite IH. now apply collide_tick_other.
    + subst st1. now rewrite lookup_alter_ne.
  - intros st' j j'. apply hits_collide.
Qed.

End CollisionTick.

Section OwnEvents.

Context {conf : Conf} {libm : Libm} {collab : Collaborators}.

(** X15. The cooldowns of a human ship are touched by its own
    [handle_events] only: after an update, a group update or a kill of
    any sprite, or an event handled by another ship, the ship is still
    there, with the same player id, and each of its weapons is on cooldown
    at a tick exactly when it was before. *)
Theorem cooldowns_change_only_on_own_events w a i h :
  human_at w i = Some h ->
  (forall ev, snd a <> HandleEvent i ev) ->
  exists h',
    human_at (step w a) i = Some h'
    /\ player_id (base h') = player_id (base h)
    /\ forall wp t, check_on_cooldown wp t (base h') = check_on_cooldown wp t (base h).
Proof.
  intros Hh Hne.
  destruct (step_human w a i h Hh) as (h' & Hh' & Hid & Hticks).
  destruct (Hticks Hne) as [Hp Ht].
  exists h'. split; [assumption|]. split; [assumption|].
  intros [] t; cbn [check_on_cooldown];
    unfold check_phaser_on_cooldown, check_torpedo_on_cooldown;
    now rewrite ?Hp, ?Ht.
Qed.

(** X16. When a living human ship (player id at least 0) handles the
    key-down of a weapon key while the weapon is not on cooldown (and, for
    the torpedo, the count is below the maximum), the weapon fires: the
    last-fired tick becomes the current tick, and the weapon's repeat
    timer is set to the cooldown constant.  A weapon that never fired is
    never on cooldown, so the first key-down always fires. *)
Theorem keydown_off_cooldown_fires wp now ev self tm :
  alive (entity (base self)) = true ->
  0 <= player_id (base self) ->
  type ev = KEYDOWN ->
  key ev = Some (weapon_key wp) ->
  (wp = TorpedoWeapon -> torpedo_count (base self) < MAX_TORPEDOES_PER_SHIP) ->
  (check_on_cooldown wp now (base self) = false ->
   last_fired wp (base (fst (handle_events now ev (self, tm)))) = Some now
   /\ snd (handle_events now ev (self, tm))
      = set_timer (weapon_repeat_event wp self) (cooldown wp) tm)
  /\ (last_fired wp (base self) = None -> check_on_cooldown wp now (base self) = false).
Proof.
  intros Ha Hp Ht Hk Hcap. split.
  - intros Hcd.
    rewrite handle_events_alive by assumption.
    unfold _handle_firing_weapon_events, _handle_movement_events.
    rewrite Ht, !(key_is_Some _ _ _ Hk).
    destruct wp;
      cbn [weapon_key weapon_repeat_event cooldown check_on_cooldown last_fired] in *.
    + unfold_codes; settle_eqb; run_stmts; rewrite Hcd;
        cbn [negb andb]; run_stmts; split; reflexivity.
    + specialize (Hcap eq_refl). apply Z.ltb_lt in Hcap.
      unfold_codes; settle_eqb; run_stmts; rewrite Hcd, Hcap;
        cbn [negb andb]; run_stmts; split; reflexivity.
  - intros Hn. destruct wp; cbn [last_fired check_on_cooldown] in *;
      unfold check_phaser_on_cooldown, check_torpedo_on_cooldown; now rewrite Hn.
Qed.

End OwnEvents.

(** ** What an event leaves alone *)

Section EventFrames.

Context {conf : Conf} {libm : Libm} {collab : Collaborators}.

Lemma keeps_when_skip I G c body : c = false -> keeps I G (when c body).
Proof. intros -> st HI _. exact HI. Qed.

Lemma keeps_when_self_skip (I G : HumanShip * gmap Z Z -> Prop) c body :
  (forall st, I st -> c (fst st) = false) -> keeps I G (when_self c body).
Proof. intros H st HI _. unfold when_self, when. now rewrite (H st HI). Qed.

End EventFrames.

(** Walk down a handler, passing over the blocks whose test [skip] shows
    false. *)
Ltac walk_past skip :=
  repeat first
    [ apply keeps_seq
    | apply keeps_when_skip; solve [skip]
    | apply keeps_when_self_skip; solve [skip]
    | apply keeps_when; intros ?
    | apply keeps_when_self
    | apply keeps_assign; intros ? ? ? ?
    | apply keeps_time_set_timer; intros ? ? ? ? ].

(** The test of a repeat event the ship is not handling. *)
Ltac other_repeat_event :=
  let st := fresh "st" in
  let H := fresh "H" in
  intros st H; cbv beta in H; destruct H as [H _];
  apply Z.eqb_neq; unfold_codes; rewrite H; assumption.

(** An assignment under the test of a key the event is not about. *)
Ltac other_key :=
  exfalso; unfold is_key in *;
  repeat match goal with
    | E : ?c = true, H : context [?c] |- _ =>
        lazymatch type of H with
        | _ = true => fail
        | _ => rewrite E in H
        end
    end;
  cbn [andb] in *; congruence.

Section MovementFrames.

Context {conf : Conf} {libm : Libm} {collab : Collaborators}.

(** X17. Each movement attribute changes on its own events only.  The
    lock flag is changed by no event but the key-down and key-up of the
    two rotate keys; the angle by no event but the key-down of a rotate
    key and the two rotate repeat events; the velocity by no event but
    the key-down of the thrust key and the thrust repeat event. *)
Theorem movement_changes_on_its_events_only now ev self tm :
  let self' := fst (handle_events now ev (self, tm)) in
  (is_key ev KEYDOWN K_a = false -> is_key ev KEYDOWN K_d = false ->
   is_key ev KEYUP K_a = false -> is_key ev KEYUP K_d = false ->
   rotate_ccw_lock self' = rotate_ccw_lock self)
  /\ (is_key ev KEYDOWN K_a = false -> is_key ev KEYDOWN K_d = false ->
      type ev <> rotate_cc_repeat_event self ->
      type ev <> rotate_cw_repeat_event self ->
      ship_ang self' = ship_ang self)
  /\ (is_key ev KEYDOWN K_s = false ->
      type ev <> acc_repeat_event self ->
      ship_vel self' = ship_vel self).
Proof.
  intros self'. subst self'. split; [|split].
  - intros Hda Hdd Hua Hud.
    apply (keeps_handle_events
             (fun st' => rotate_ccw_lock (fst st') = rotate_ccw_lock self));
      [| |reflexivity].
    + unfold _handle_movement_events. walk; at_leaf; auto; other_key.
    + unfold _handle_firing_weapon_events. walk; at_leaf; auto.
  - intros Hda Hdd Hcc Hcw. unfold_codes.
    assert (H : (fun st' =>
                   player_id (base (fst st')) = player_id (base self)
                   /\ ship_ang (fst st') = ship_ang self)
                  (handle_events now ev (self, tm))).
    { apply keeps_handle_events; [| |auto].
      - unfold _handle_movement_events. unfold_codes.
        walk_past other_repeat_event; at_leaf; auto; other_key.
      - unfold _handle_firing_weapon_events. walk; at_leaf; auto. }
    apply H.
  - intros Hds Hacc. unfold_codes.
    assert (H : (fun st' =>
                   player_id (base (fst st')) = player_id (base self)
                   /\ ship_vel (fst st') = ship_vel self)
                  (handle_events now ev (self, tm))).
    { apply keeps_handle_events; [| |auto].
      - unfold _handle_movement_events. unfold_codes.
        walk_past other_repeat_event; at_leaf; auto; other_key.
      - unfold _handle_firing_weapon_events. walk; at_leaf; auto. }
    apply H.
Qed.

(** X18. A weapon changes on its own events only: an event that is
    neither the key-down of the weapon's key nor the weapon's repeat event
    leaves the weapon's projectile group and last-fired tick (and, for
    the phaser, the [phaser] attribute) as they were. *)
Theorem weapon_changes_on_its_events_only wp now ev self tm :
  is_key ev KEYDOWN (weapon_key wp) = false ->
  type ev <> weapon_repeat_event wp self ->
  weapon_state wp (base (fst (handle_events now ev (self, tm))))
  = weapon_state wp (base self).
Proof.
  intros Hk Hr. apply no_fire_keeps_weapon.
  unfold fires_on. apply Z.eqb_neq in Hr.
  destruct wp; cbn [weapon_key weapon_repeat_event] in *;
    unfold keydown_fires, repeat_fires; rewrite Hk, Hr;
    cbn [andb orb]; apply andb_false_r.
Qed.

(** X19. The repeat timer of a control changes on the events of its key
    only: an event that is neither the key-down nor the key-up of the
    control's key leaves the timer of the control's repeat event as it
    was, set or not.  In particular a repeat event never stops or
    restarts its own timer. *)
Theorem timer_changes_on_its_key_only c now ev self tm :
  is_key ev KEYDOWN (control_key c) = false ->
  is_key ev KEYUP (control_key c) = false ->
  snd (handle_events now ev (self, tm)) !! control_event c self
  = tm !! control_event c self.
Proof.
  intros Hd Hu.
  assert (H : (fun st' =>
                 player_id (base (fst st')) = player_id (base self)
                 /\ snd st' !! control_event c self = tm !! control_event c self)
                (handle_events now ev (self, tm))).
  { apply keeps_handle_events; [| |auto].
    - unfold _handle_movement_events. walk; at_leaf; auto.
      all: split; [assumption|].
      all: match goal with
           | H : _ !! ?i = ?v |- _ !! ?i = ?v => rewrite <- H
           end.
      all: unfold set_timer.
      all: match goal with
           | |- context [if ?b then _ else _] => destruct b
           end.
      all: first [ apply lookup_delete_ne | apply lookup_insert_ne | idtac ].
      all: destruct c as [[]|[]];
        cbn [control_event control_key movement_repeat_event movement_key weapon_key] in *.
      all: unfold_codes; try lia.
      all: other_key.
    - unfold _handle_firing_weapon_events. walk; at_leaf; auto.
      all: split; [assumption|].
      all: match goal with
           | H : _ !! ?i = ?v |- _ !! ?i = ?v => rewrite <- H
           end.
      all: unfold set_timer.
      all: match goal with
           | |- context [if ?b then _ else _] => destruct b
           end.
      all: first [ apply lookup_delete_ne | apply lookup_insert_ne | idtac ].
      all: destruct c as [[]|[]];
        cbn [control_event control_key movement_repeat_event movement_key weapon_key] in *.
      all: unfold_codes; try lia.
      all: other_key. }
  apply H.
Qed.

End MovementFrames.

(** ** The further theorems on the concrete game *)

Section MoreExamples.

Import Demo Fleet.
#[local] Existing Instance Demo.conf.
#[local] Existing Instance Demo.libm.
#[local] Existing Instance Demo.collab.

Lemma cooldown_window_witness :
  (exists last,
      last_fired PhaserWeapon (base hot) = Some last /\ last <> 0
      /\ 200 <= last + cooldown PhaserWeapon)
  /\ check_on_cooldown PhaserWeapon 200 (base hot) = true
  /\ 300 <= 400
  /\ check_on_cooldown PhaserWeapon 300 (base hot) = false
  /\ check_on_cooldown PhaserWeapon 400 (base hot) = false.
Proof.
  assert (Hw : exists last,
             last_fired PhaserWeapon (base hot) = Some last /\ last <> 0
             /\ 200 <= last + cooldown PhaserWeapon).
  { exists 100. split; [reflexivity|]. split; [lia|]. vm_compute. discriminate. }
  assert (Hle : 300 <= 400) by lia.
  assert (Hoff : check_on_cooldown PhaserWeapon 300 (base hot) = false) by reflexivity.
  split; [exact Hw|].
  split; [exact (proj2 (proj1 (cooldown_window PhaserWeapon 200 (base hot))) Hw)|].
  split; [exact Hle|]. split; [exact Hoff|].
  exact (proj1 (proj2 (cooldown_window PhaserWeapon 300 (base hot))) 400 Hle Hoff).
Defined.

Lemma repeat_event_numbers_witness :
  0 <= player_id (base player)
  /\ Forall (fun n => USEREVENT < n /\ n <> KEYDOWN /\ n <> KEYUP) (repeat_events player)
  /\ -4 <= player_id (base player) - player_id (base rival) <= 4
  /\ exists n, In n (repeat_events player) /\ In n (repeat_events rival).
Proof.
  assert (Hp : 0 <= player_id (base player)) by (vm_compute; discriminate).
  assert (Hd : -4 <= player_id (base player) - player_id (base rival) <= 4)
    by (vm_compute; split; discriminate).
  split; [exact Hp|].
  split; [exact (proj1 (proj2 (repeat_event_numbers player rival)) Hp)|].
  split; [exact Hd|].
  exact (proj2 (proj2 (proj2 (repeat_event_numbers player rival))) Hd).
Defined.

Lemma other_events_are_ignored_witness :
  type mouse_motion <> KEYDOWN
  /\ type mouse_motion <> KEYUP
  /\ ~ In (type mouse_motion) (repeat_events player)
  /\ handle_events 50 mouse_motion (player, thrusting) = (player, thrusting)
  /\ 0 <= player_id (base player)
  /\ (type (key_down K_x) = KEYDOWN \/ type (key_down K_x) = KEYUP)
  /\ Forall (fun k => key_is (key_down K_x) k = false) ship_keys
  /\ handle_events 50 (key_down K_x) (player, thrusting) = (player, thrusting).
Proof.
  assert (H1 : type mouse_motion <> KEYDOWN) by (vm_compute; discriminate).
  assert (H2 : type mouse_motion <> KEYUP) by (vm_compute; discriminate).
  assert (H3 : ~ In (type mouse_motion) (repeat_events player))
    by (vm_compute; intros H; repeat destruct H as [H|H]; try discriminate; exact H).
  assert (Hp : 0 <= player_id (base player)) by (vm_compute; discriminate).
  assert (Ht : type (key_down K_x) = KEYDOWN \/ type (key_down K_x) = KEYUP)
    by (left; reflexivity).
  assert (Hk : Forall (fun k => key_is (key_down K_x) k = false) ship_keys)
    by (repeat constructor).
  split; [exact H1|]. split; [exact H2|]. split; [exact H3|].
  split; [exact (proj1 (other_events_are_ignored 50 mouse_motion player thrusting)
                   H1 H2 H3)|].
  split; [exact Hp|]. split; [exact Ht|]. split; [exact Hk|].
  exact (proj2 (other_events_are_ignored 50 (key_down K_x) player thrusting) Hp Ht Hk).
Defined.

Lemma weapon_keyup_cancels_timer_witness :
  alive (entity (base hot)) = true
  /\ 0 <= player_id (base hot)
  /\ type (key_up K_q) = KEYUP
  /\ key (key_up K_q) = Some (weapon_key PhaserWeapon)
  /\ handle_events 120 (key_up K_q) (hot, {[ USEREVENT + 5 := 150 ]})
     = (hot, set_timer (weapon_repeat_event PhaserWeapon hot) 0 {[ USEREVENT + 5 := 150 ]})
  /\ period (snd (handle_events 120 (key_up K_q) (hot, {[ USEREVENT + 5 := 150 ]})))
       (weapon_repeat_event PhaserWeapon hot) = 0.
Proof.
  assert (Ha : alive (entity (base hot)) = true) by reflexivity.
  assert (Hp : 0 <= player_id (base hot)) by (vm_compute; discriminate).
  assert (Ht : type (key_up K_q) = KEYUP) by reflexivity.
  assert (Hk : key (key_up K_q) = Some (weapon_key PhaserWeapon)) by reflexivity.
  split; [exact Ha|]. split; [exact Hp|]. split; [exact Ht|]. split; [exact Hk|].
  exact (weapon_keyup_cancels_timer PhaserWeapon 120 (key_up K_q) hot
           {[ USEREVENT + 5 := 150 ]} Ha Hp Ht Hk).
Defined.

Lemma keydown_on_cooldown_restarts_timer_witness :
  alive (entity (base hot)) = true
  /\ 0 <= player_id (base hot)
  /\ type (key_down K_q) = KEYDOWN
  /\ key (key_down K_q) = Some (weapon_key PhaserWeapon)
  /\ check_on_cooldown PhaserWeapon 200 (base hot) = true
  /\ handle_events 200 (key_down K_q) (hot, ∅)
     = (hot, set_timer (weapon_repeat_event PhaserWeapon hot) (cooldown PhaserWeapon) ∅).
Proof.
  assert (Ha : alive (entity (base hot)) = true) by reflexivity.
  assert (Hp : 0 <= player_id (base hot)) by (vm_compute; discriminate).
  assert (Ht : type (key_down K_q) = KEYDOWN) by reflexivity.
  assert (Hk : key (key_down K_q) = Some (weapon_key PhaserWeapon)) by reflexivity.
  assert (Hc : check_on_cooldown PhaserWeapon 200 (base hot) = true) by reflexivity.
  split; [exact Ha|]. split; [exact Hp|]. split; [exact Ht|]. split; [exact Hk|].
  split; [exact Hc|].
  exact (keydown_on_cooldown_restarts_timer PhaserWeapon 200 (key_down K_q) hot ∅
           Ha Hp Ht Hk Hc).
Defined.

Lemma torpedo_fire_appends_one_witness :
  0 <= player_id (base reloading)
  /\ fires_on TorpedoWeapon 1500 (timer_event (USEREVENT + 4)) reloading = true
  /\ torpedo_group
       (base (fst (handle_events 1500 (timer_event (USEREVENT + 4)) (reloading, ∅))))
     = [torpedo] ++ [torpedo]
  /\ torpedo_last_fired
       (base (fst (handle_events 1500 (timer_event (USEREVENT + 4)) (reloading, ∅))))
     = Some 1500.
Proof.
  assert (Hp : 0 <= player_id (base reloading)) by (vm_compute; discriminate).
  assert (Hf : fires_on TorpedoWeapon 1500 (timer_event (USEREVENT + 4)) reloading
               = true)
    by reflexivity.
  pose proof (torpedo_fire_appends_one 1500 (timer_event (USEREVENT + 4)) reloading ∅
                Hp Hf)
    as (H1 & H2 & _).
  split; [exact Hp|]. split; [exact Hf|]. split; [exact H1|exact H2].
Defined.

Lemma handle_events_adds_at_most_one_torpedo_witness :
  0 <= player_id (base player)
  /\ exists new,
      torpedo_group (base (fst (handle_events 1000 (key_down K_e) (player, ∅))))
      = torpedo_group (base player) ++ new
      /\ (length new <= 1)%nat.
Proof.
  assert (Hp : 0 <= player_id (base player)) by (vm_compute; discriminate).
  split; [exact Hp|].
  exact (handle_events_adds_at_most_one_torpedo 1000 (key_down K_e) player ∅ Hp).
Defined.

Lemma thrust_repeat_accelerates_witness :
  alive (entity (base player)) = true
  /\ 0 <= player_id (base player)
  /\ type (timer_event (USEREVENT + 3)) = acc_repeat_event player
  /\ ship_vel (fst (handle_events 180 (timer_event (USEREVENT + 3)) (player, thrusting)))
     = ((0 + cos (0 * PyFloat.pi / 180))%float, (0 + sin (0 * PyFloat.pi / 180))%float)
  /\ ship_ang (fst (handle_events 180 (timer_event (USEREVENT + 3)) (player, thrusting)))
     = 0%float
  /\ rotate_ccw_lock
       (fst (handle_events 180 (timer_event (USEREVENT + 3)) (player, thrusting)))
     = false
  /\ snd (handle_events 180 (timer_event (USEREVENT + 3)) (player, thrusting))
     = thrusting.
Proof.
  assert (Ha : alive (entity (base player)) = true) by reflexivity.
  assert (Hp : 0 <= player_id (base player)) by (vm_compute; discriminate).
  assert (Ht : type (timer_event (USEREVENT + 3)) = acc_repeat_event player)
    by reflexivity.
  split; [exact Ha|]. split; [exact Hp|]. split; [exact Ht|].
  exact (thrust_repeat_accelerates 180 (timer_event (USEREVENT + 3)) player thrusting
           Ha Hp Ht).
Defined.

Lemma keyup_hands_rotation_over_witness :
  alive (entity (base player)) = true
  /\ 0 <= player_id (base player)
  /\ type (key_up K_d) = KEYUP
  /\ key (key_up K_d) = Some K_d
  /\ type (timer_event (USEREVENT + 1)) = rotate_cc_repeat_event player
  /\ rotate_ccw_lock (fst (handle_events 60 (key_up K_d) (player, ∅))) = true
  /\ ship_ang
       (fst (handle_events 130 (timer_event (USEREVENT + 1))
               (handle_events 60 (key_up K_d) (player, ∅))))
     = PyFloat.float_rem (0 - 22.5) 360.
Proof.
  assert (Ha : alive (entity (base player)) = true) by reflexivity.
  assert (Hp : 0 <= player_id (base player)) by (vm_compute; discriminate).
  assert (Ht : type (key_up K_d) = KEYUP) by reflexivity.
  assert (Hk : key (key_up K_d) = Some K_d) by reflexivity.
  assert (Hr : type (timer_event (USEREVENT + 1)) = rotate_cc_repeat_event player)
    by reflexivity.
  pose proof (proj1 (keyup_hands_rotation_over 60 (key_up K_d) 130
                       (timer_event (USEREVENT + 1)) player ∅ Ha Hp Ht) Hk)
    as (H1 & _ & _ & H4).
  split; [exact Ha|]. split; [exact Hp|]. split; [exact Ht|]. split; [exact Hk|].
  split; [exact Hr|]. split; [exact H1|exact (H4 Hr)].
Defined.

Lemma repeat_timer_stays_set_witness :
  0 < MOVEMENT_TIME_DELAY_MS
  /\ is_key (timer_event (USEREVENT + 3)) KEYUP (movement_key Thrust) = false
  /\ is_Some (thrusting !! movement_repeat_event Thrust player)
  /\ is_Some
       (snd (handle_events 180 (timer_event (USEREVENT + 3)) (player, thrusting))
          !! movement_repeat_event Thrust player).
Proof.
  assert (Hd : 0 < MOVEMENT_TIME_DELAY_MS) by reflexivity.
  assert (Hk : is_key (timer_event (USEREVENT + 3)) KEYUP (movement_key Thrust) = false)
    by reflexivity.
  assert (Hs : is_Some (thrusting !! movement_repeat_event Thrust player))
    by (exists 100; reflexivity).
  split; [exact Hd|]. split; [exact Hk|]. split; [exact Hs|].
  exact (repeat_timer_stays_set Thrust 180 (timer_event (USEREVENT + 3))
           (player, thrusting) Hd Hk Hs).
Defined.


Lemma update_without_collision_witness :
  (forall j, In j [1%nat] ->
     hits 1 (alter (sprite_with_entity SpaceEntity_update) 1%nat (store world)) j = false)
  /\ update 70 1 [1%nat] (store world)
     = alter (sprite_with_entity SpaceEntity_update) 1%nat (store world).
Proof.
  assert (H : forall j, In j [1%nat] ->
                hits 1 (alter (sprite_with_entity SpaceEntity_update) 1%nat (store world)) j
                = false)
    by (intros j [<-|[]]; vm_compute; reflexivity).
  split; [exact H|].
  exact (proj1 (update_without_collision 70 1%nat [1%nat] (store world) H)).
Defined.

Lemma update_frame_witness :
  1%nat <> 0%nat
  /\ sprite_hull <$> update 70 0 [0%nat; 1%nat] (store world) !! 1%nat
     = sprite_hull <$> store world !! 1%nat.
Proof.
  assert (H : 1%nat <> 0%nat) by lia.
  split; [exact H|].
  exact (proj2 (proj2 (update_frame 70 0%nat [0%nat; 1%nat] (store world) 1%nat)) H).
Defined.

Lemma update_records_collision_tick_witness :
  is_Some (store world !! 0%nat ≫= sprite_ship)
  /\ (exists j, In j [0%nat; 1%nat]
        /\ hits 0 (alter (sprite_with_entity SpaceEntity_update) 0%nat (store world)) j
           = true)
  /\ update 70 0 [0%nat; 1%nat] (store world) !! 0%nat ≫= sprite_last_collided = Some 70
  /\ 1%nat <> 0%nat
  /\ update 70 0 [0%nat; 1%nat] (store world) !! 1%nat ≫= sprite_last_collided
     = store world !! 1%nat ≫= sprite_last_collided.
Proof.
  assert (Hs : is_Some (store world !! 0%nat ≫= sprite_ship))
    by (exists (base player); reflexivity).
  assert (Hh : exists j, In j [0%nat; 1%nat]
                 /\ hits 0 (alter (sprite_with_entity SpaceEntity_update) 0%nat
                              (store world)) j = true)
    by (exists 1%nat; split; [right; left; reflexivity|vm_compute; reflexivity]).
  assert (Hne : 1%nat <> 0%nat) by lia.
  pose proof (update_records_collision_tick 70 0%nat [0%nat; 1%nat] (store world) Hs)
    as (H1 & H2 & _).
  split; [exact Hs|]. split; [exact Hh|]. split; [exact (H1 Hh)|].
  split; [exact Hne|exact (H2 1%nat Hne)].
Defined.

Lemma cooldowns_change_only_on_own_events_witness :
  human_at world 0 = Some player
  /\ (forall ev, snd (70, Update 1 [0%nat; 1%nat]) <> HandleEvent 0 ev)
  /\ exists h',
      human_at (step world (70, Update 1 [0%nat; 1%nat])) 0 = Some h'
      /\ player_id (base h') = player_id (base player)
      /\ forall wp t,
          check_on_cooldown wp t (base h') = check_on_cooldown wp t (base player).
Proof.
  assert (Hh : human_at world 0 = Some player) by reflexivity.
  assert (Hn : forall ev, snd (70, Update 1 [0%nat; 1%nat]) <> HandleEvent 0 ev)
    by (intros ev; discriminate).
  split; [exact Hh|]. split; [exact Hn|].
  exact (cooldowns_change_only_on_own_events world (70, Update 1 [0%nat; 1%nat])
           0%nat player Hh Hn).
Defined.

Lemma keydown_off_cooldown_fires_witness :
  alive (entity (base hot)) = true
  /\ 0 <= player_id (base hot)
  /\ type (key_down K_q) = KEYDOWN
  /\ key (key_down K_q) = Some (weapon_key PhaserWeapon)
  /\ (PhaserWeapon = TorpedoWeapon -> torpedo_count (base hot) < MAX_TORPEDOES_PER_SHIP)
  /\ check_on_cooldown PhaserWeapon 251 (base hot) = false
  /\ last_fired PhaserWeapon (base (fst (handle_events 251 (key_down K_q) (hot, ∅))))
     = Some 251
  /\ snd (handle_events 251 (key_down K_q) (hot, ∅))
     = set_timer (weapon_repeat_event PhaserWeapon hot) (cooldown PhaserWeapon) ∅.
Proof.
  assert (Ha : alive (entity (base hot)) = true) by reflexivity.
  assert (Hp : 0 <= player_id (base hot)) by (vm_compute; discriminate).
  assert (Ht : type (key_down K_q) = KEYDOWN) by reflexivity.
  assert (Hk : key (key_down K_q) = Some (weapon_key PhaserWeapon)) by reflexivity.
  assert (Hc : PhaserWeapon = TorpedoWeapon ->
               torpedo_count (base hot) < MAX_TORPEDOES_PER_SHIP)
    by (intros H; discriminate H).
  assert (Hoff : check_on_cooldown PhaserWeapon 251 (base hot) = false) by reflexivity.
  split; [exact Ha|]. split; [exact Hp|]. split; [exact Ht|]. split; [exact Hk|].
  split; [exact Hc|]. split; [exact Hoff|].
  exact (proj1 (keydown_off_cooldown_fires PhaserWeapon 251 (key_down K_q) hot ∅
                  Ha Hp Ht Hk Hc) Hoff).
Defined.

Lemma movement_changes_on_its_events_only_witness :
  is_key (key_down K_s) KEYDOWN K_a = false
  /\ is_key (key_down K_s) KEYDOWN K_d = false
  /\ is_key (key_down K_s) KEYUP K_a = false
  /\ is_key (key_down K_s) KEYUP K_d = false
  /\ type (key_down K_s) <> rotate_cc_repeat_event player
  /\ type (key_down K_s) <> rotate_cw_repeat_event player
  /\ rotate_ccw_lock (fst (handle_events 80 (key_down K_s) (player, ∅)))
     = rotate_ccw_lock player
  /\ ship_ang (fst (handle_events 80 (key_down K_s) (player, ∅))) = ship_ang player
  /\ is_key (key_down K_a) KEYDOWN K_s = false
  /\ type (key_down K_a) <> acc_repeat_event player
  /\ ship_vel (fst (handle_events 10 (key_down K_a) (player, ∅))) = ship_vel player.
Proof.
  assert (H1 : is_key (key_down K_s) KEYDOWN K_a = false) by reflexivity.
  assert (H2 : is_key (key_down K_s) KEYDOWN K_d = false) by reflexivity.
  assert (H3 : is_key (key_down K_s) KEYUP K_a = false) by reflexivity.
  assert (H4 : is_key (key_down K_s) KEYUP K_d = false) by reflexivity.
  assert (H5 : type (key_down K_s) <> rotate_cc_repeat_event player)
    by (vm_compute; discriminate).
  assert (H6 : type (key_down K_s) <> rotate_cw_repeat_event player)
    by (vm_compute; discriminate).
  assert (H7 : is_key (key_down K_a) KEYDOWN K_s = false) by reflexivity.
  assert (H8 : type (key_down K_a) <> acc_repeat_event player)
    by (vm_compute; discriminate).
  pose proof (movement_changes_on_its_events_only 80 (key_down K_s) player ∅)
    as (Hlock & Hang & _).
  pose proof (movement_changes_on_its_events_only 10 (key_down K_a) player ∅)
    as (_ & _ & Hvel).
  split; [exact H1|]. split; [exact H2|]. split; [exact H3|]. split; [exact H4|].
  split; [exact H5|]. split; [exact H6|].
  split; [exact (Hlock H1 H2 H3 H4)|]. split; [exact (Hang H1 H2 H5 H6)|].
  split; [exact H7|]. split; [exact H8|exact (Hvel H7 H8)].
Defined.

Lemma weapon_changes_on_its_events_only_witness :
  is_key (key_down K_e) KEYDOWN (weapon_key PhaserWeapon) = false
  /\ type (key_down K_e) <> weapon_repeat_event PhaserWeapon hot
  /\ weapon_state PhaserWeapon (base (fst (handle_events 1000 (key_down K_e) (hot, ∅))))
     = weapon_state PhaserWeapon (base hot).
Proof.
  assert (Hk : is_key (key_down K_e) KEYDOWN (weapon_key PhaserWeapon) = false)
    by reflexivity.
  assert (Hr : type (key_down K_e) <> weapon_repeat_event PhaserWeapon hot)
    by (vm_compute; discriminate).
  split; [exact Hk|]. split; [exact Hr|].
  exact (weapon_changes_on_its_events_only PhaserWeapon 1000 (key_down K_e) hot ∅
           Hk Hr).
Defined.

Lemma timer_changes_on_its_key_only_witness :
  is_key (timer_event (USEREVENT + 3)) KEYDOWN (control_key (Move Thrust)) = false
  /\ is_key (timer_event (USEREVENT + 3)) KEYUP (control_key (Move Thrust)) = false
  /\ snd (handle_events 180 (timer_event (USEREVENT + 3)) (player, thrusting))
       !! control_event (Move Thrust) player
     = thrusting !! control_event (Move Thrust) player.
Proof.
  assert (Hd : is_key (timer_event (USEREVENT + 3)) KEYDOWN (control_key (Move Thrust))
               = false) by reflexivity.
  assert (Hu : is_key (timer_event (USEREVENT + 3)) KEYUP (control_key (Move Thrust))
               = false) by reflexivity.
  split; [exact Hd|]. split; [exact Hu|].
  exact (timer_changes_on_its_key_only (Move Thrust) 180 (timer_event (USEREVENT + 3))
           player thrusting Hd Hu).
Defined.

Lemma keyup_cancels_unshared_timer_witness :
  let self := assign_ang (-22.5)%float (set_rotate_ccw_lock true player) in
  let w1 := step convoy (60, HandleEvent 0 (key_up K_a)) in
  human_at convoy 0 = Some self
  /\ alive (entity (base self)) = true
  /\ 0 <= player_id (base self)
  /\ type (key_up K_a) = KEYUP
  /\ key (key_up K_a) = Some (movement_key RotateLeft)
  /\ number_unshared (movement_repeat_event RotateLeft self) 0 convoy
  /\ key_stays_up RotateLeft 0 convoy_run
  /\ deliverable w1 convoy_run
  /\ period (timers w1) (USEREVENT + 1) = 0
  /\ period (timers (run w1 convoy_run)) (USEREVENT + 1) = 0.
Proof.
  intros self w1.
  assert (Hh : human_at convoy 0 = Some self) by reflexivity.
  assert (Ha : alive (entity (base self)) = true) by reflexivity.
  assert (Hp : 0 <= player_id (base self)) by (vm_compute; discriminate).
  assert (Ht : type (key_up K_a) = KEYUP) by reflexivity.
  assert (Hk : key (key_up K_a) = Some (movement_key RotateLeft)) by reflexivity.
  assert (Hu : number_unshared (movement_repeat_event RotateLeft self) 0 convoy).
  { intros j h Hne Hj. apply human_at_Some in Hj.
    unfold convoy, turning, world in Hj. cbn [store] in Hj.
    apply lookup_insert_Some in Hj. destruct Hj as [[_ Hj]|[_ Hj]].
    - injection Hj as <-. vm_compute. intuition discriminate.
    - apply lookup_insert_Some in Hj. destruct Hj as [[Hj _]|[_ Hj]]; [congruence|].
      apply lookup_insert_Some in Hj. destruct Hj as [[_ Hj]|[_ Hj]]; [discriminate|].
      apply lookup_singleton_Some in Hj. destruct Hj as [Hj _]. congruence. }
  assert (Hn : key_stays_up RotateLeft 0 convoy_run)
    by (repeat constructor; discriminate).
  assert (Hd : deliverable w1 convoy_run)
    by (vm_compute; repeat split).
  split; [exact Hh|]. split; [exact Ha|]. split; [exact Hp|]. split; [exact Ht|].
  split; [exact Hk|]. split; [exact Hu|]. split; [exact Hn|]. split; [exact Hd|].
  pose proof (keyup_cancels_unshared_timer RotateLeft 0%nat convoy 60 (key_up K_a) self
                Hh Ha Hp Ht Hk) as [H1 H2].
  split; [exact H1|]. exact (proj1 (H2 Hu convoy_run Hn Hd)).
Defined.

End MoreExamples.
